(** * Invisible Teleprompter: the overlay window controller

    A shallow embedding of [teleprompter.py] (class [TeleprompterWindow]).
    The controller is a single-threaded event handler over a windowing
    toolkit: every slot and event override of the class becomes a function
    on an explicit [State] record that holds the Python attributes of the
    window together with the observable properties of the widgets it owns.

    Toolkit objects are modelled by the part of their documented contract
    the code relies on: a slider or scroll bar stores a value bounded to its
    range, a timer is active or not, a button has an enabled flag and a
    label.  Integers are Python integers ([Z]); Python floats and the
    toolkit's [qreal] are binary64 floats; Qt enumeration values are the
    toolkit's numeric constants.  Console output ([print]) and the window
    stacking calls ([show], [activateWindow], [raise_]) do not touch any of
    the modelled state and are left out. *)

From Stdlib Require Import ZArith Bool String List Lia.
From Stdlib Require Import Floats.PrimFloat.
From Stdlib Require Floats.FloatOps Floats.SpecFloat Numbers.Cyclic.Int63.Uint63.
From coqutil Require Import Datatypes.RecordSetters.
Import ListNotations.
Import DoubleBraceUpdate.

Local Open Scope string_scope.
Local Open Scope Z_scope.

#[local] Set Warnings "-inexact-float".

(** ** Toolkit constants *)

Module Qt.

(** [Qt::Key] *)
Definition Key_C : Z := 0x43.
Definition Key_H : Z := 0x48.
Definition Key_L : Z := 0x4c.
Definition Key_S : Z := 0x53.
Definition Key_U : Z := 0x55.
Definition Key_Up : Z := 0x01000013.
Definition Key_Down : Z := 0x01000015.

(** [Qt::KeyboardModifier] *)
Definition NoModifier : Z := 0.
Definition ShiftModifier : Z := 0x02000000.
Definition ControlModifier : Z := 0x04000000.
Definition AltModifier : Z := 0x08000000.

(** [Qt::MouseButton] *)
Definition NoButton : Z := 0.
Definition LeftButton : Z := 1.
Definition RightButton : Z := 2.

(** [Qt::WindowType] *)
Definition Tool : Z := 0x0b.
Definition X11BypassWindowManagerHint : Z := 0x0400.
Definition FramelessWindowHint : Z := 0x0800.
Definition WindowStaysOnTopHint : Z := 0x00040000.

(** [QEvent::Type] *)
Definition KeyPress : Z := 6.
Definition KeyRelease : Z := 7.

(** [Qt::CursorShape], the two shapes the window uses *)
Inductive CursorShape := ArrowCursor | SizeFDiagCursor.

End Qt.

(** ** Toolkit value types *)

Record QPoint := mkPoint { px : Z; py : Z }.
Record QSize := mkSize { width : Z; height : Z }.
Record QColor := mkColor { red : Z; green : Z; blue : Z; isValid : bool }.
Record QFont := mkFont { family : string; pointSize : Z }.

(** [QPoint.__sub__] *)
Definition point_sub (a b : QPoint) : QPoint :=
  mkPoint (px a - px b) (py a - py b).

(** ** Floating-point values *)

(** Conversion of an integer to a double, as Python's [value / 100.0] and
    C's implicit conversion do it. *)
Definition float_of_Z (z : Z) : float :=
  PrimFloat.of_uint63 (Uint63.of_Z z).

(** Truncation of a double toward zero, as Python's [int(x)] and C's
    conversion to an integer do it (0 for a NaN or an infinity). *)
Definition float_to_Z (f : float) : Z :=
  match FloatOps.Prim2SF f with
  | SpecFloat.S754_finite sign m e =>
      let magnitude :=
        if 0 <=? e then Z.pos m * 2 ^ e else Z.pos m / 2 ^ (- e) in
      if sign then - magnitude else magnitude
  | _ => 0
  end.

(** [qBound(0.0, x, 1.0)] on doubles: [qMax(0.0, qMin(1.0, x))]. *)
Definition qBound_unit (x : float) : float :=
  let upper := if PrimFloat.ltb 1 x then 1%float else x in
  if PrimFloat.ltb 0 upper then upper else 0%float.

(** What a top-level [QWidget] keeps of the opacity it is given: the value
    bounded to 0..1, times 255, converted to an unsigned integer. *)
Definition opacity_byte (opacity : float) : Z :=
  float_to_Z (PrimFloat.mul (qBound_unit opacity) 255).

(** [QWidget.windowOpacity()] after [setWindowOpacity(opacity)]: the kept
    byte over 255. *)
Definition stored_opacity (opacity : float) : float :=
  PrimFloat.div (float_of_Z (opacity_byte opacity)) 255.

Arguments float_of_Z : simpl never.
Arguments float_to_Z : simpl never.
Arguments qBound_unit : simpl never.
Arguments opacity_byte : simpl never.
Arguments stored_opacity : simpl never.

(** ** Toolkit widgets *)

(** [qBound(min, v, max)], the bounding every [QAbstractSlider] applies to a
    value it is asked to store. *)
Definition qBound (lo v hi : Z) : Z := Z.max lo (Z.min hi v).

(** A [QSlider] of the control strip. *)
Record QSlider := mkSlider {
  sl_enabled : bool;
  sl_value : Z;
  sl_minimum : Z;
  sl_maximum : Z
}.

(** [QSlider.setValue]: the value is forced into the slider's range; the
    second component is the argument of the [valueChanged] signal, emitted
    only when the stored value changes. *)
Definition slider_setValue (v : Z) (sl : QSlider) : QSlider * option Z :=
  let b := qBound (sl_minimum sl) v (sl_maximum sl) in
  if b =? sl_value sl then (sl, None)
  else (sl{{ sl_value := b }}, Some b).

Definition slider_setEnabled (b : bool) (sl : QSlider) : QSlider :=
  sl{{ sl_enabled := b }}.

(** The vertical [QScrollBar] of the text surface.  Its range is owned by the
    toolkit, which derives it from the laid-out document and the viewport. *)
Record QScrollBar := mkScrollBar {
  sb_value : Z;
  sb_minimum : Z;
  sb_maximum : Z
}.

(** [QScrollBar.setValue] (inherited from [QAbstractSlider]): the scroll bar
    forces the value to be within [sb_minimum .. sb_maximum]. *)
Definition scrollbar_setValue (v : Z) (sb : QScrollBar) : QScrollBar :=
  sb{{ sb_value := qBound (sb_minimum sb) v (sb_maximum sb) }}.

(** [QScrollBar.setRange], called by the toolkit when the document is laid
    out again: the maximum is never below the minimum and the current value
    is bounded to the new range. *)
Definition scrollbar_setRange (lo hi : Z) (sb : QScrollBar) : QScrollBar :=
  let hi' := Z.max lo hi in
  mkScrollBar (qBound lo (sb_value sb) hi') lo hi'.

Record QPushButton := mkButton {
  pb_enabled : bool;
  pb_text : string
}.

Definition button_setEnabled (b : bool) (w : QPushButton) : QPushButton :=
  w{{ pb_enabled := b }}.
Definition button_setText (t : string) (w : QPushButton) : QPushButton :=
  w{{ pb_text := t }}.

(** The colour swatch button: its enabled flag and the fill colour written
    into its style sheet. *)
Record ColorButton := mkColorButton {
  cb_enabled : bool;
  cb_fill : QColor
}.

Definition swatch_setEnabled (b : bool) (w : ColorButton) : ColorButton :=
  w{{ cb_enabled := b }}.

(** The entries of a combo box and the index of the current one ([-1]:
    none). *)
Record ComboItems := mkItems {
  ci_items : list string;
  ci_currentIndex : Z
}.

Definition no_items : ComboItems := mkItems [] (-1).

(** [QComboBox.addItem]: the entry is appended; the first entry put into an
    empty box becomes the current one. *)
Definition addItem (text : string) (c : ComboItems) : ComboItems :=
  match ci_items c with
  | [] => mkItems [text] 0
  | _ => mkItems (ci_items c ++ [text]) (ci_currentIndex c)
  end.

(** [QComboBox.findText]: index of the first entry equal to [text], or -1. *)
Fixpoint find_from (i : Z) (text : string) (entries : list string) : Z :=
  match entries with
  | [] => -1
  | entry :: rest =>
      if String.eqb entry text then i else find_from (i + 1) text rest
  end.

Definition findText (text : string) (c : ComboItems) : Z :=
  find_from 0 text (ci_items c).

Definition setCurrentIndex (index : Z) (c : ComboItems) : ComboItems :=
  mkItems (ci_items c) index.

(** [QComboBox.currentText]: the current entry, or the empty string. *)
Definition currentText (c : ComboItems) : string :=
  if ci_currentIndex c <? 0 then ""
  else nth (Z.to_nat (ci_currentIndex c)) (ci_items c) "".

(** [load_fonts]: every family the font database reports is added, then the
    default family is made current if the box has it. *)
Definition load_fonts (families : list string) (default_family : string)
    (c : ComboItems) : ComboItems :=
  let c := fold_left (fun c fam => addItem fam c) families c in
  let index := findText default_family c in
  if index >=? 0 then setCurrentIndex index c else c.

(** The font combo box: its enabled flag and its entries. *)
Record QComboBox := mkCombo {
  co_enabled : bool;
  co_list : ComboItems
}.

Definition combo_setEnabled (b : bool) (w : QComboBox) : QComboBox :=
  w{{ co_enabled := b }}.

(** The text surface: read-only flag, font, foreground colour of its style
    sheet and its vertical scroll bar. *)
Record QTextEdit := mkTextEdit {
  readOnly : bool;
  te_font : QFont;
  te_color : QColor;
  verticalScrollBar : QScrollBar
}.

Definition setReadOnly (b : bool) (te : QTextEdit) : QTextEdit :=
  te{{ readOnly := b }}.

Record QTimer := mkTimer {
  tm_active : bool;
  tm_interval : Z
}.

(** [QTimer.start(msec)] and [QTimer.stop()] *)
Definition timer_start (msec : Z) (t : QTimer) : QTimer :=
  mkTimer true msec.
Definition timer_stop (t : QTimer) : QTimer :=
  t{{ tm_active := false }}.

(** ** Events delivered by the toolkit *)

(** A [QEvent] as seen by [eventFilter]: its type and, for key events, the
    key and the modifier mask. *)
Record QEvent := mkEvent {
  ev_type : Z;
  ev_key : Z;
  ev_modifiers : Z
}.

(** A [QMouseEvent]: position in the window, position on screen, the button
    that caused the event and the buttons held.  [lock_button_underMouse] is
    the answer of [lock_button.underMouse()] at the time of the event. *)
Record QMouseEvent := mkMouse {
  ev_x : Z;
  ev_y : Z;
  globalPos : QPoint;
  button : Z;
  buttons : Z;
  lock_button_underMouse : bool
}.

(** Outcome of the modal [QColorDialog]: whether [exec_] reported acceptance
    and the colour selected. *)
Record QColorDialog := mkDialog {
  exec_ : bool;
  selectedColor : QColor
}.

(** ** The window state *)

Record State := mkState {
  (* window properties *)
  windowFlags : Z;
  minimumSize : QSize;
  win_size : QSize;
  win_pos : QPoint;
  windowOpacity : float;
  cursor : Qt.CursorShape;
  (* attributes of the controller *)
  resize_enabled : bool;
  locked : bool;
  scrolling : bool;
  scroll_speed : Z;
  transparency : float;
  font_color : QColor;
  font_size : Z;
  font_family : string;
  dragging : bool;
  drag_position : option QPoint;
  (* [resizing], [resize_start_pos] and [resize_start_size] are not
     created by [__init__]: [None] is the absent attribute *)
  resizing : option bool;
  resize_start_pos : option QPoint;
  resize_start_size : option QSize;
  (* widgets *)
  control_panel_visible : bool;
  font_combo : QComboBox;
  size_slider : QSlider;
  color_button : ColorButton;
  trans_slider : QSlider;
  scroll_slider : QSlider;
  lock_button : QPushButton;
  scroll_button : QPushButton;
  text_edit : QTextEdit;
  scroll_timer : QTimer
}.

(** The four window flags requested at start-up and again on every lock
    transition. *)
Definition overlay_flags : Z :=
  Z.lor (Z.lor (Z.lor Qt.FramelessWindowHint Qt.WindowStaysOnTopHint) Qt.Tool)
        Qt.X11BypassWindowManagerHint.

Definition white : QColor := mkColor 255 255 255 true.

(** [QWidget.resize]: each dimension is bounded to the widget's minimum and
    maximum size; the controller never sets a maximum, which stays at the
    toolkit's default [QWIDGETSIZE_MAX]. *)
Definition QWIDGETSIZE_MAX : Z := 16777215.

Definition resize (w h : Z) (s : State) : State :=
  s{{ win_size :=
        mkSize (Z.max (width (minimumSize s)) (Z.min w QWIDGETSIZE_MAX))
               (Z.max (height (minimumSize s)) (Z.min h QWIDGETSIZE_MAX)) }}.

(** [QWidget.setWindowOpacity] *)
Definition setWindowOpacity (opacity : float) (s : State) : State :=
  s{{ windowOpacity := stored_opacity opacity }}.

(** The state [__init__] leaves behind on a system whose font database
    lists [families]: flags, minimum size, attribute defaults, the widgets
    built by [init_ui] (the font combo box as [load_fonts] fills it, sliders
    with their ranges and start values, an empty text surface whose scroll bar
    has the empty range 0..0), the default geometry, the window opacity set
    from the transparency, and a stopped timer. *)
Definition startup (families : list string) : State := {|
  windowFlags :=
    Z.lor (Z.lor (Z.lor Qt.FramelessWindowHint Qt.WindowStaysOnTopHint) Qt.Tool)
          Qt.X11BypassWindowManagerHint;
  minimumSize := mkSize 300 200;
  win_size := mkSize 600 400;
  win_pos := mkPoint 100 100;
  windowOpacity := stored_opacity 0.8;
  cursor := Qt.ArrowCursor;
  resize_enabled := true;
  locked := false;
  scrolling := false;
  scroll_speed := 1;
  transparency := 0.8;
  font_color := white;
  font_size := 18;
  font_family := "Arial";
  dragging := false;
  drag_position := None;
  resizing := None;
  resize_start_pos := None;
  resize_start_size := None;
  control_panel_visible := true;
  font_combo := mkCombo true (load_fonts families "Arial" no_items);
  size_slider := mkSlider true 18 8 72;
  color_button := mkColorButton true white;
  trans_slider := mkSlider true (float_to_Z (PrimFloat.mul 0.8 100)) 10 100;
  scroll_slider := mkSlider true 1 1 10;
  lock_button := mkButton true "Lock Position";
  scroll_button := mkButton true "Start Scrolling";
  text_edit := mkTextEdit false (mkFont "Arial" 18) white (mkScrollBar 0 0 0);
  scroll_timer := mkTimer false 0
|}.

(** A font database for the sample runs. *)
Definition sample_fonts : list string :=
  ["Arial"; "Courier New"; "DejaVu Sans"].

(** The start state on a system with the sample fonts. *)
Definition init : State := startup sample_fonts.

(** ** Slots of the controller *)

(** [toggle_lock]: flip the lock flag, request the overlay flags again,
    relabel the lock button and disable (lock) or enable (unlock) the five
    style controls and the editing of the text; both toggle buttons are
    enabled in either branch. *)
Definition toggle_lock (s : State) : State :=
  let s := s{{ locked := negb (locked s) }} in
  if locked s then
    s{{ windowFlags := overlay_flags }}
     {{ lock_button ::= button_setText "Unlock Position" }}
     {{ font_combo ::= combo_setEnabled false }}
     {{ size_slider ::= slider_setEnabled false }}
     {{ color_button ::= swatch_setEnabled false }}
     {{ trans_slider ::= slider_setEnabled false }}
     {{ scroll_slider ::= slider_setEnabled false }}
     {{ text_edit ::= setReadOnly true }}
     {{ lock_button ::= button_setEnabled true }}
     {{ scroll_button ::= button_setEnabled true }}
  else
    s{{ windowFlags := overlay_flags }}
     {{ lock_button ::= button_setText "Lock Position" }}
     {{ font_combo ::= combo_setEnabled true }}
     {{ size_slider ::= slider_setEnabled true }}
     {{ color_button ::= swatch_setEnabled true }}
     {{ trans_slider ::= slider_setEnabled true }}
     {{ scroll_slider ::= slider_setEnabled true }}
     {{ text_edit ::= setReadOnly false }}
     {{ lock_button ::= button_setEnabled true }}
     {{ scroll_button ::= button_setEnabled true }}.

(** [toggle_scrolling]: flip the scroll flag and start the timer with a 50 ms
    period or stop it. *)
Definition toggle_scrolling (s : State) : State :=
  let s := s{{ scrolling := negb (scrolling s) }} in
  if scrolling s then
    s{{ scroll_timer ::= timer_start 50 }}
     {{ scroll_button ::= button_setText "Stop Scrolling" }}
  else
    s{{ scroll_timer ::= timer_stop }}
     {{ scroll_button ::= button_setText "Start Scrolling" }}.

(** The scroll offset of the text surface: [verticalScrollBar().value()]. *)
Definition scroll_offset (s : State) : Z :=
  sb_value (verticalScrollBar (text_edit s)).

(** [scrollbar.setValue(v)] on the text surface's vertical scroll bar. *)
Definition set_scroll_offset (v : Z) (s : State) : State :=
  s{{ text_edit := (text_edit s){{ verticalScrollBar ::= scrollbar_setValue v }} }}.

(** [auto_scroll], the slot of the timer's [timeout] signal. *)
Definition auto_scroll (s : State) : State :=
  set_scroll_offset (scroll_offset s + scroll_speed s) s.

Definition scroll_up (s : State) : State :=
  set_scroll_offset (scroll_offset s - 10) s.

Definition scroll_down (s : State) : State :=
  set_scroll_offset (scroll_offset s + 10) s.

(** [change_scroll_speed], the slot of [scroll_slider.valueChanged]. *)
Definition change_scroll_speed (value : Z) (s : State) : State :=
  s{{ scroll_speed := value }}.

(** [scroll_slider.setValue(v)]: the slider stores the bounded value and,
    when it changed, its [valueChanged] signal runs [change_scroll_speed]. *)
Definition scroll_slider_setValue (v : Z) (s : State) : State :=
  let (sl, signal) := slider_setValue v (scroll_slider s) in
  let s := s{{ scroll_slider := sl }} in
  match signal with
  | Some value => change_scroll_speed value s
  | None => s
  end.

Definition increase_scroll_speed (s : State) : State :=
  let s := s{{ scroll_speed := Z.min (scroll_speed s + 1) 10 }} in
  scroll_slider_setValue (scroll_speed s) s.

Definition decrease_scroll_speed (s : State) : State :=
  let s := s{{ scroll_speed := Z.max (scroll_speed s - 1) 1 }} in
  scroll_slider_setValue (scroll_speed s) s.

Definition change_font_family (fam : string) (s : State) : State :=
  s{{ font_family := fam }}
   {{ text_edit := (text_edit s){{ te_font := mkFont fam (pointSize (te_font (text_edit s))) }} }}.

Definition change_font_size (size : Z) (s : State) : State :=
  s{{ font_size := size }}
   {{ text_edit := (text_edit s){{ te_font := mkFont (family (te_font (text_edit s))) size }} }}.

(** [change_font_color]: the dialog is modal; when it is accepted with a
    valid colour, the colour is stored and written to the swatch and to the
    text surface. *)
Definition change_font_color (dialog : QColorDialog) (s : State) : State :=
  if exec_ dialog then
    let color := selectedColor dialog in
    if isValid color then
      s{{ font_color := color }}
       {{ color_button := (color_button s){{ cb_fill := color }} }}
       {{ text_edit := (text_edit s){{ te_color := color }} }}
    else s
  else s.

(** [change_transparency]: the transparency is the double [value / 100.0]
    and is handed to [setWindowOpacity]. *)
Definition change_transparency (value : Z) (s : State) : State :=
  let s := s{{ transparency := PrimFloat.div (float_of_Z value) 100 }} in
  setWindowOpacity (transparency s) s.

Definition toggle_controls (s : State) : State :=
  s{{ control_panel_visible := negb (control_panel_visible s) }}.

Definition emergency_unlock (s : State) : State :=
  if locked s then toggle_lock s else s.

(** ** Mouse event overrides *)

(** The test both mouse handlers use for the resize hotspot:
    [rect.bottomRight().x() - event.x() < corner_size] and the same for y,
    where [rect()] is [(0, 0, width, height)], whose [bottomRight()] is
    [(width - 1, height - 1)], and [corner_size] is 20. *)
Definition corner_size : Z := 20.

Definition in_corner (event : QMouseEvent) (s : State) : bool :=
  (width (win_size s) - 1 - ev_x event <? corner_size)
  && (height (win_size s) - 1 - ev_y event <? corner_size).

Definition mousePressEvent (event : QMouseEvent) (s : State) : State :=
  if resize_enabled s && in_corner event s then
    s{{ cursor := Qt.SizeFDiagCursor }}
     {{ dragging := false }}
     {{ resizing := Some true }}
     {{ resize_start_pos := Some (globalPos event) }}
     {{ resize_start_size := Some (win_size s) }}
  else if locked s && lock_button_underMouse event then
    toggle_lock s
  else if negb (locked s) && (button event =? Qt.LeftButton) then
    s{{ dragging := true }}
     {{ resizing := Some false }}
     {{ drag_position := Some (point_sub (globalPos event) (win_pos s)) }}
  else s.

(** [hasattr(self, 'resizing') and self.resizing] *)
Definition is_resizing (s : State) : bool :=
  match resizing s with
  | Some b => b
  | None => false
  end.

(** The hover feedback at the end of [mouseMoveEvent]. *)
Definition hover_cursor (event : QMouseEvent) (s : State) : State :=
  if resize_enabled s then
    if in_corner event s then s{{ cursor := Qt.SizeFDiagCursor }}
    else s{{ cursor := Qt.ArrowCursor }}
  else s.

(** [mouseMoveEvent].  [None] is a Python exception: reading the absent
    [resize_start_pos] / [resize_start_size] attribute, or subtracting a
    [drag_position] that is still [None]. *)
Definition mouseMoveEvent (event : QMouseEvent) (s : State) : option State :=
  if resize_enabled s && is_resizing s && (buttons event =? Qt.LeftButton) then
    match resize_start_pos s, resize_start_size s with
    | Some start_pos, Some start_size =>
        let diff := point_sub (globalPos event) start_pos in
        let new_width := Z.max (width (minimumSize s)) (width start_size + px diff) in
        let new_height := Z.max (height (minimumSize s)) (height start_size + py diff) in
        Some (resize new_width new_height s)
    | _, _ => None
    end
  else if negb (locked s) && dragging s && (buttons event =? Qt.LeftButton) then
    match drag_position s with
    | Some offset =>
        Some (hover_cursor event (s{{ win_pos := point_sub (globalPos event) offset }}))
    | None => None
    end
  else Some (hover_cursor event s).

Definition mouseReleaseEvent (event : QMouseEvent) (s : State) : State :=
  if button event =? Qt.LeftButton then
    let s := s{{ dragging := false }} in
    match resizing s with
    | Some _ => s{{ resizing := Some false }}
    | None => s
    end
  else s.

(** ** Keyboard dispatch *)

(** [event.key() == k and event.modifiers() == m] *)
Definition key_is (k m : Z) (event : QEvent) : bool :=
  (ev_key event =? k) && (ev_modifiers event =? m).

(** [eventFilter], installed on the window itself.  The result pairs the new
    state with the value returned to the toolkit ([true]: the event is
    consumed); [super().eventFilter] is [QObject.eventFilter], which changes
    nothing and returns [false]. *)
Definition eventFilter (dialog : QColorDialog) (event : QEvent) (s : State)
  : State * bool :=
  if ev_type event =? Qt.KeyPress then
    if key_is Qt.Key_L Qt.ControlModifier event then (toggle_lock s, true)
    else if key_is Qt.Key_S Qt.ControlModifier event then (toggle_scrolling s, true)
    else if locked s then (s, true)
    else if key_is Qt.Key_Up Qt.ShiftModifier event then (scroll_up s, true)
    else if key_is Qt.Key_Down Qt.ShiftModifier event then (scroll_down s, true)
    else if key_is Qt.Key_C Qt.ControlModifier event then (change_font_color dialog s, true)
    else if key_is Qt.Key_H Qt.ControlModifier event then (toggle_controls s, true)
    else if key_is Qt.Key_Up Qt.ControlModifier event then (increase_scroll_speed s, true)
    else if key_is Qt.Key_Down Qt.ControlModifier event then (decrease_scroll_speed s, true)
    else (s, false)
  else (s, false).

(** The slots that [QShortcut.activated] signals are connected to. *)
Inductive Slot :=
| slot_toggle_lock
| slot_toggle_scrolling
| slot_change_font_color
| slot_increase_scroll_speed
| slot_decrease_scroll_speed
| slot_scroll_up
| slot_scroll_down
| slot_toggle_controls
| slot_emergency_unlock.

Definition call (slot : Slot) (dialog : QColorDialog) (s : State) : State :=
  match slot with
  | slot_toggle_lock => toggle_lock s
  | slot_toggle_scrolling => toggle_scrolling s
  | slot_change_font_color => change_font_color dialog s
  | slot_increase_scroll_speed => increase_scroll_speed s
  | slot_decrease_scroll_speed => decrease_scroll_speed s
  | slot_scroll_up => scroll_up s
  | slot_scroll_down => scroll_down s
  | slot_toggle_controls => toggle_controls s
  | slot_emergency_unlock => emergency_unlock s
  end.

(** [setup_shortcuts]: the [QShortcut] objects created on the window, each
    with the slot its [activated] signal is connected to. *)
Definition setup_shortcuts : list (string * Slot) :=
  [ ("Ctrl+L", slot_toggle_lock);
    ("Ctrl+S", slot_toggle_scrolling);
    ("Ctrl+C", slot_change_font_color);
    ("Ctrl+Up", slot_increase_scroll_speed);
    ("Ctrl+Down", slot_decrease_scroll_speed);
    ("Shift+Up", slot_scroll_up);
    ("Shift+Down", slot_scroll_down);
    ("Ctrl+H", slot_toggle_controls) ].

(** The shortcut [__init__] adds after [setup_shortcuts]. *)
Definition emergency_unlock_shortcut : string * Slot :=
  ("Ctrl+Alt+U", slot_emergency_unlock).

Definition shortcuts : list (string * Slot) :=
  setup_shortcuts ++ [emergency_unlock_shortcut].

Fixpoint connected (seq : string) (table : list (string * Slot)) : option Slot :=
  match table with
  | [] => None
  | (k, slot) :: rest => if String.eqb k seq then Some slot else connected seq rest
  end.

(** The [activated] signal of the shortcut registered for [seq].  No
    shortcut object is ever disabled or deleted by the controller, and no
    slot but [emergency_unlock] reads the lock flag. *)
Definition shortcut_activated (seq : string) (dialog : QColorDialog) (s : State)
  : State :=
  match connected seq shortcuts with
  | Some slot => call slot dialog s
  | None => s
  end.

(** ** The event loop *)

(** What the toolkit can deliver to the window between two returns to the
    event loop.  A widget reacts to the user only while it is enabled; the
    timer fires only while it is active. *)
Inductive Event :=
| LockButtonClicked
| ScrollButtonClicked
| ColorButtonClicked (dialog : QColorDialog)
| FontComboChanged (fam : string)
| SizeSliderMoved (v : Z)
| TransSliderMoved (v : Z)
| ScrollSliderMoved (v : Z)
| ShortcutActivated (seq : string) (dialog : QColorDialog)
| KeyEventFiltered (event : QEvent) (dialog : QColorDialog)
| TimerTimeout
| MousePress (event : QMouseEvent)
| MouseMove (event : QMouseEvent)
| MouseRelease (event : QMouseEvent)
| DocumentLaidOut (maximum : Z)
| ScrollBarMoved (v : Z).

Definition size_slider_setValue (v : Z) (s : State) : State :=
  let (sl, signal) := slider_setValue v (size_slider s) in
  let s := s{{ size_slider := sl }} in
  match signal with
  | Some value => change_font_size value s
  | None => s
  end.

Definition trans_slider_setValue (v : Z) (s : State) : State :=
  let (sl, signal) := slider_setValue v (trans_slider s) in
  let s := s{{ trans_slider := sl }} in
  match signal with
  | Some value => change_transparency value s
  | None => s
  end.

(** The user picks the entry [fam] of the font combo box: the box makes it
    the current entry and, when that changes the current text, its
    [currentTextChanged] signal runs [change_font_family].  Only listed
    entries can be picked. *)
Definition font_combo_activated (fam : string) (s : State) : State :=
  let entries := co_list (font_combo s) in
  let index := findText fam entries in
  if (0 <=? index) && negb (String.eqb (currentText entries) fam) then
    change_font_family fam
      (s{{ font_combo := (font_combo s){{ co_list := setCurrentIndex index entries }} }})
  else s.

(** The toolkit lays the document out again (text edited, font or window
    size changed) and sets the scroll bar's range to [0 .. maximum]. *)
Definition document_laid_out (maximum : Z) (s : State) : State :=
  s{{ text_edit := (text_edit s){{ verticalScrollBar ::= scrollbar_setRange 0 maximum }} }}.

Definition handle (ev : Event) (s : State) : option State :=
  match ev with
  | LockButtonClicked =>
      Some (if pb_enabled (lock_button s) then toggle_lock s else s)
  | ScrollButtonClicked =>
      Some (if pb_enabled (scroll_button s) then toggle_scrolling s else s)
  | ColorButtonClicked dialog =>
      Some (if cb_enabled (color_button s) then change_font_color dialog s else s)
  | FontComboChanged fam =>
      Some (if co_enabled (font_combo s) then font_combo_activated fam s else s)
  | SizeSliderMoved v =>
      Some (if sl_enabled (size_slider s) then size_slider_setValue v s else s)
  | TransSliderMoved v =>
      Some (if sl_enabled (trans_slider s) then trans_slider_setValue v s else s)
  | ScrollSliderMoved v =>
      Some (if sl_enabled (scroll_slider s) then scroll_slider_setValue v s else s)
  | ShortcutActivated seq dialog => Some (shortcut_activated seq dialog s)
  | KeyEventFiltered event dialog => Some (fst (eventFilter dialog event s))
  | TimerTimeout =>
      Some (if tm_active (scroll_timer s) then auto_scroll s else s)
  | MousePress event => Some (mousePressEvent event s)
  | MouseMove event => mouseMoveEvent event s
  | MouseRelease event => Some (mouseReleaseEvent event s)
  | DocumentLaidOut maximum => Some (document_laid_out maximum s)
  | ScrollBarMoved v => Some (set_scroll_offset v s)
  end.

(** States the running program can be in, on a system with any font
    database. *)
Inductive reachable : State -> Prop :=
| reachable_startup families : reachable (startup families)
| reachable_step s ev s' :
    reachable s -> handle ev s = Some s' -> reachable s'.

(** Running a list of events from a state; [None] as soon as one raises. *)
Fixpoint run (evs : list Event) (s : State) : option State :=
  match evs with
  | [] => Some s
  | ev :: rest =>
      match handle ev s with
      | Some s' => run rest s'
      | None => None
      end
  end.

(** [n] consecutive timer ticks. *)
Fixpoint ticks (n : nat) (s : State) : State :=
  match n with
  | O => s
  | S n' => ticks n' (if tm_active (scroll_timer s) then auto_scroll s else s)
  end.

(** ** The invariant of the running program *)

Record Inv (s : State) : Prop := mkInv {
  inv_resize_enabled : resize_enabled s = true;
  inv_minimumSize : minimumSize s = mkSize 300 200;
  inv_windowFlags : windowFlags s = overlay_flags;
  inv_lock_button :
    lock_button s =
    mkButton true (if locked s then "Unlock Position" else "Lock Position");
  inv_scroll_button :
    scroll_button s =
    mkButton true (if scrolling s then "Stop Scrolling" else "Start Scrolling");
  inv_font_combo : co_enabled (font_combo s) = negb (locked s);
  inv_size_slider : sl_enabled (size_slider s) = negb (locked s);
  inv_color_button : cb_enabled (color_button s) = negb (locked s);
  inv_trans_slider : sl_enabled (trans_slider s) = negb (locked s);
  inv_scroll_slider :
    scroll_slider s = mkSlider (negb (locked s)) (scroll_speed s) 1 10;
  inv_scroll_speed : 1 <= scroll_speed s <= 10;
  inv_readOnly : readOnly (text_edit s) = locked s;
  inv_timer_active : tm_active (scroll_timer s) = scrolling s;
  inv_timer_interval : scrolling s = true -> tm_interval (scroll_timer s) = 50;
  inv_scroll_range :
    sb_minimum (verticalScrollBar (text_edit s)) <= scroll_offset s
    <= sb_maximum (verticalScrollBar (text_edit s));
  inv_resize_start :
    is_resizing s = true ->
    resize_start_pos s <> None /\ resize_start_size s <> None;
  inv_drag_position : dragging s = true -> drag_position s <> None
}.

(** ** Observations and sample inputs *)

(** The enabled flags of the seven controls of the strip, in the order the
    strip shows them, and the read-only flag of the text surface. *)
Definition control_flags (s : State) : list bool :=
  [ co_enabled (font_combo s);
    sl_enabled (size_slider s);
    cb_enabled (color_button s);
    sl_enabled (trans_slider s);
    sl_enabled (scroll_slider s);
    pb_enabled (lock_button s);
    pb_enabled (scroll_button s);
    readOnly (text_edit s) ].

Definition all_controls_enabled (s : State) : bool :=
  co_enabled (font_combo s) && sl_enabled (size_slider s)
  && cb_enabled (color_button s) && sl_enabled (trans_slider s)
  && sl_enabled (scroll_slider s) && pb_enabled (lock_button s)
  && pb_enabled (scroll_button s).

(** A key press with the given key and modifier mask. *)
Definition key_press (k m : Z) : QEvent := mkEvent Qt.KeyPress k m.

(** A colour dialog the user dismisses. *)
Definition dialog_cancelled : QColorDialog := mkDialog false white.

(** The window right after [Ctrl+L] (or a click on the lock button) in the
    start state. *)
Definition locked_window : State := toggle_lock init.

(** Left button pressed in the middle of the control strip. *)
Definition left_press : QMouseEvent :=
  mkMouse 50 50 (mkPoint 150 150) Qt.LeftButton Qt.LeftButton false.

(** Right button released while the left one is still held. *)
Definition right_release : QMouseEvent :=
  mkMouse 50 50 (mkPoint 150 150) Qt.RightButton Qt.LeftButton false.

(** Left button pressed inside the resize hotspot of the 600x400 window. *)
Definition corner_press : QMouseEvent :=
  mkMouse 590 390 (mkPoint 690 490) Qt.LeftButton Qt.LeftButton false.

(** The pointer dragged to the top-left corner of the screen. *)
Definition move_to_origin : QMouseEvent :=
  mkMouse (-100) (-100) (mkPoint 0 0) Qt.NoButton Qt.LeftButton false.

(** Right button pressed inside the resize hotspot, and released again. *)
Definition right_corner_press : QMouseEvent :=
  mkMouse 590 390 (mkPoint 690 490) Qt.RightButton Qt.RightButton false.

Definition right_corner_release : QMouseEvent :=
  mkMouse 590 390 (mkPoint 690 490) Qt.RightButton Qt.NoButton false.

(** The pointer moved ten units right and down of the hotspot press, the
    right button held. *)
Definition move_right_held : QMouseEvent :=
  mkMouse 600 400 (mkPoint 700 500) Qt.NoButton Qt.RightButton false.

(** The pointer moved twenty million units to the right of the hotspot
    press, the left button held. *)
Definition move_far_right : QMouseEvent :=
  mkMouse 20000590 390 (mkPoint 20000690 490) Qt.NoButton Qt.LeftButton false.

(** The locked window after the right button was pressed in the hotspot
    and released again. *)
Definition stuck_resize : State :=
  mouseReleaseEvent right_corner_release
    (mousePressEvent right_corner_press (toggle_lock init)).

(** A drag in progress: the start state after [left_press]. *)
Definition drag_started : State := mousePressEvent left_press init.

(** A resize in progress in the locked window. *)
Definition locked_resize_started : State :=
  mousePressEvent corner_press locked_window.

(** Auto-scroll running over a text three scroll units taller than the
    viewport. *)
Definition short_text_scrolling : State :=
  toggle_scrolling (document_laid_out 3 init).

(** Auto-scroll running over a text a thousand units taller than the
    viewport. *)
Definition long_text_scrolling : State :=
  toggle_scrolling (document_laid_out 1000 init).

(** A locked window over the long text, not scrolling. *)
Definition locked_long_text : State :=
  toggle_lock (document_laid_out 1000 init).

(** The scroll mode: the flag and the timer that drives it. *)
Definition scroll_mode (s : State) : bool * QTimer :=
  (scrolling s, scroll_timer s).

(** The events whose handling calls [toggle_scrolling]: a click on the
    enabled scroll button, the shortcut connected to that slot, and a key
    press that [eventFilter] takes for [Ctrl+S]. *)
Definition calls_toggle_scrolling (ev : Event) (s : State) : bool :=
  match ev with
  | ScrollButtonClicked => pb_enabled (scroll_button s)
  | ShortcutActivated seq _ =>
      match connected seq shortcuts with
      | Some slot_toggle_scrolling => true
      | _ => false
      end
  | KeyEventFiltered event _ =>
      (ev_type event =? Qt.KeyPress)
      && negb (key_is Qt.Key_L Qt.ControlModifier event)
      && key_is Qt.Key_S Qt.ControlModifier event
  | _ => false
  end.

(** ** Style state *)

(** What the style slots keep true of the presentation: the sliders mirror
    the attributes they drive, the text surface shows the font and colour
    held in the attributes, the window opacity is the one kept from the
    transparency, and the window is no smaller than its minimum size and no
    larger than the toolkit's maximum. *)
Record StyleInv (s : State) : Prop := mkStyleInv {
  sty_size_value : sl_value (size_slider s) = font_size s;
  sty_size_minimum : sl_minimum (size_slider s) = 8;
  sty_size_maximum : sl_maximum (size_slider s) = 72;
  sty_font_size : 8 <= font_size s <= 72;
  sty_pointSize : pointSize (te_font (text_edit s)) = font_size s;
  sty_family : family (te_font (text_edit s)) = font_family s;
  sty_trans_minimum : sl_minimum (trans_slider s) = 10;
  sty_trans_maximum : sl_maximum (trans_slider s) = 100;
  sty_trans_value : 10 <= sl_value (trans_slider s) <= 100;
  sty_transparency :
    transparency s = PrimFloat.div (float_of_Z (sl_value (trans_slider s))) 100;
  sty_opacity : windowOpacity s = stored_opacity (transparency s);
  sty_color_valid : isValid (font_color s) = true;
  sty_swatch : cb_fill (color_button s) = font_color s;
  sty_text_color : te_color (text_edit s) = font_color s;
  sty_width : 300 <= width (win_size s) <= QWIDGETSIZE_MAX;
  sty_height : 200 <= height (win_size s) <= QWIDGETSIZE_MAX
}.

(** ** More sample states *)

(** The long text scrolled to its middle, auto-scroll off. *)
Definition mid_text : State :=
  set_scroll_offset 500 (document_laid_out 1000 init).

(** The start state with the speed slider moved to 5. *)
Definition speed_five : State := scroll_slider_setValue 5 init.

(** The pointer moved, left button held, to screen position (400, 300). *)
Definition move_left_held : QMouseEvent :=
  mkMouse 300 200 (mkPoint 400 300) Qt.NoButton Qt.LeftButton false.

(** The left button released. *)
Definition left_release : QMouseEvent :=
  mkMouse 300 200 (mkPoint 400 300) Qt.LeftButton Qt.NoButton false.

(** The eight key combinations [eventFilter] tests for. *)
Definition handled_key (event : QEvent) : bool :=
  key_is Qt.Key_L Qt.ControlModifier event
  || key_is Qt.Key_S Qt.ControlModifier event
  || key_is Qt.Key_Up Qt.ShiftModifier event
  || key_is Qt.Key_Down Qt.ShiftModifier event
  || key_is Qt.Key_C Qt.ControlModifier event
  || key_is Qt.Key_H Qt.ControlModifier event
  || key_is Qt.Key_Up Qt.ControlModifier event
  || key_is Qt.Key_Down Qt.ControlModifier event.

(** ** Proof support *)

Lemma qBound_range lo v hi : lo <= hi -> lo <= qBound lo v hi <= hi.
Proof. unfold qBound; lia. Qed.

Lemma qBound_inside lo v hi : lo <= v <= hi -> qBound lo v hi = v.
Proof. unfold qBound; lia. Qed.

Ltac open_state s :=
  destruct s as
    [? ? ? ? ? ? ? ? ? ? ? ? ? ? ? ? ? ? ? ?
     [? [? ?]] [? ? ? ?] [? ?] [? ? ? ?] [? ? ? ?] [? ?] [? ?]
     [? ? ? [? ? ?]] [? ?]].

Ltac reduce_state :=
  cbv [RecordSetters.constant] in *; cbn in *;
  cbv [RecordSetters.constant] in *.

Ltac split_eqs :=
  repeat match goal with
    | H : mkButton _ _ = mkButton _ _ |- _ => injection H as ? ?
    | H : mkSlider _ _ _ _ = mkSlider _ _ _ _ |- _ => injection H as ? ? ? ?
    | H : mkSize _ _ = mkSize _ _ |- _ => injection H as ? ?
    end;
  subst.

Ltac start_inv s :=
  let H := fresh "Hinv" in
  intros H; destruct H; open_state s; reduce_state; split_eqs.

Ltac finish_inv :=
  constructor; reduce_state; auto;
  try congruence; try (unfold qBound; lia);
  try (intros; split; discriminate); try (intros; discriminate).

(** ** The invariant holds in every reachable state *)

Lemma float_to_Z_start : float_to_Z (PrimFloat.mul 0.8 100) = 80.
Proof. vm_compute. reflexivity. Qed.

Lemma Inv_startup families : Inv (startup families).
Proof. constructor; cbn; try reflexivity; try lia; discriminate. Qed.

Lemma Inv_toggle_lock s : Inv s -> Inv (toggle_lock s).
Proof.
  start_inv s. unfold toggle_lock, scroll_offset, is_resizing in *.
  reduce_state.
  match goal with |- context [negb ?b] => destruct b end;
    reduce_state; finish_inv.
Qed.

Lemma Inv_toggle_scrolling s : Inv s -> Inv (toggle_scrolling s).
Proof.
  start_inv s. unfold toggle_scrolling, scroll_offset, is_resizing in *.
  reduce_state.
  match goal with |- context [negb ?b] => destruct b end;
    reduce_state; finish_inv.
Qed.

Lemma Inv_set_scroll_offset v s : Inv s -> Inv (set_scroll_offset v s).
Proof.
  start_inv s.
  unfold set_scroll_offset, scrollbar_setValue, scroll_offset, is_resizing in *.
  reduce_state. finish_inv.
Qed.

Lemma Inv_auto_scroll s : Inv s -> Inv (auto_scroll s).
Proof. apply Inv_set_scroll_offset. Qed.

Lemma Inv_scroll_up s : Inv s -> Inv (scroll_up s).
Proof. apply Inv_set_scroll_offset. Qed.

Lemma Inv_scroll_down s : Inv s -> Inv (scroll_down s).
Proof. apply Inv_set_scroll_offset. Qed.

Lemma Inv_document_laid_out m s : Inv s -> Inv (document_laid_out m s).
Proof.
  start_inv s.
  unfold document_laid_out, scrollbar_setRange, scroll_offset, is_resizing in *.
  reduce_state. finish_inv.
Qed.

Lemma Inv_scroll_slider_setValue v s : Inv s -> Inv (scroll_slider_setValue v s).
Proof.
  start_inv s.
  unfold scroll_slider_setValue, slider_setValue, change_scroll_speed,
    scroll_offset, is_resizing in *.
  reduce_state.
  match goal with |- context [?a =? ?b] => destruct (Z.eqb_spec a b) end;
    reduce_state; finish_inv.
Qed.

Lemma Inv_increase_scroll_speed s : Inv s -> Inv (increase_scroll_speed s).
Proof.
  start_inv s.
  unfold increase_scroll_speed, scroll_slider_setValue, slider_setValue,
    change_scroll_speed, scroll_offset, is_resizing in *.
  reduce_state.
  match goal with |- context [?a =? ?b] => destruct (Z.eqb_spec a b) end;
    reduce_state; finish_inv.
  f_equal. unfold qBound in *. lia.
Qed.

Lemma Inv_decrease_scroll_speed s : Inv s -> Inv (decrease_scroll_speed s).
Proof.
  start_inv s.
  unfold decrease_scroll_speed, scroll_slider_setValue, slider_setValue,
    change_scroll_speed, scroll_offset, is_resizing in *.
  reduce_state.
  match goal with |- context [?a =? ?b] => destruct (Z.eqb_spec a b) end;
    reduce_state; finish_inv.
  f_equal. unfold qBound in *. lia.
Qed.

Lemma Inv_change_font_family fam s : Inv s -> Inv (change_font_family fam s).
Proof.
  start_inv s. unfold change_font_family, scroll_offset, is_resizing in *.
  reduce_state. finish_inv.
Qed.

Lemma Inv_change_font_color dialog s : Inv s -> Inv (change_font_color dialog s).
Proof.
  intros H. unfold change_font_color.
  destruct (exec_ dialog); [ | exact H ].
  destruct (isValid (selectedColor dialog)); [ | exact H ].
  revert H. start_inv s. unfold scroll_offset, is_resizing in *.
  reduce_state. finish_inv.
Qed.

Lemma Inv_size_slider_setValue v s : Inv s -> Inv (size_slider_setValue v s).
Proof.
  start_inv s.
  unfold size_slider_setValue, slider_setValue, change_font_size,
    scroll_offset, is_resizing in *.
  reduce_state.
  match goal with |- context [?a =? ?b] => destruct (Z.eqb_spec a b) end;
    reduce_state; finish_inv.
Qed.

Lemma Inv_trans_slider_setValue v s : Inv s -> Inv (trans_slider_setValue v s).
Proof.
  start_inv s.
  unfold trans_slider_setValue, slider_setValue, change_transparency,
    scroll_offset, is_resizing in *.
  reduce_state.
  match goal with |- context [?a =? ?b] => destruct (Z.eqb_spec a b) end;
    reduce_state; finish_inv.
Qed.

Lemma Inv_toggle_controls s : Inv s -> Inv (toggle_controls s).
Proof.
  start_inv s. unfold toggle_controls, scroll_offset, is_resizing in *.
  reduce_state. finish_inv.
Qed.

Lemma Inv_emergency_unlock s : Inv s -> Inv (emergency_unlock s).
Proof.
  intros H. unfold emergency_unlock.
  destruct (locked s); [ apply Inv_toggle_lock | ]; exact H.
Qed.

Lemma Inv_mousePressEvent event s : Inv s -> Inv (mousePressEvent event s).
Proof.
  intros H. unfold mousePressEvent.
  destruct (resize_enabled s && in_corner event s).
  { revert H. start_inv s. unfold scroll_offset, is_resizing in *.
    reduce_state. finish_inv. }
  destruct (locked s && lock_button_underMouse event).
  { apply Inv_toggle_lock, H. }
  destruct (negb (locked s) && (button event =? Qt.LeftButton)); [ | exact H ].
  revert H. start_inv s. unfold scroll_offset, is_resizing in *.
  reduce_state. finish_inv.
Qed.

Lemma Inv_hover_cursor event s : Inv s -> Inv (hover_cursor event s).
Proof.
  intros H. unfold hover_cursor.
  destruct (resize_enabled s); [ | exact H ].
  destruct (in_corner event s);
    revert H; start_inv s; unfold scroll_offset, is_resizing in *;
    reduce_state; finish_inv.
Qed.

(** A pointer move never raises in a state that satisfies the invariant. *)
Lemma Inv_mouseMoveEvent event s :
  Inv s -> exists s', mouseMoveEvent event s = Some s' /\ Inv s'.
Proof.
  intros H. unfold mouseMoveEvent.
  destruct (resize_enabled s && is_resizing s && (buttons event =? Qt.LeftButton))
    eqn:Eresize.
  - apply andb_true_iff in Eresize as [Eresize _].
    apply andb_true_iff in Eresize as [_ Eresize].
    destruct (inv_resize_start s H Eresize) as [Hpos Hsize].
    destruct (resize_start_pos s) as [start_pos | ]; [ | congruence ].
    destruct (resize_start_size s) as [start_size | ]; [ | congruence ].
    eexists; split; [ reflexivity | ].
    clear Eresize Hpos Hsize. revert H. start_inv s.
    unfold scroll_offset, is_resizing in *. reduce_state. finish_inv.
  - destruct (negb (locked s) && dragging s && (buttons event =? Qt.LeftButton))
      eqn:Edrag.
    + apply andb_true_iff in Edrag as [Edrag _].
      apply andb_true_iff in Edrag as [_ Edrag].
      pose proof (inv_drag_position s H Edrag) as Hoff.
      destruct (drag_position s) as [offset | ]; [ | congruence ].
      eexists; split; [ reflexivity | ].
      apply Inv_hover_cursor.
      clear Eresize Edrag Hoff. revert H. start_inv s.
      unfold scroll_offset, is_resizing in *. reduce_state. finish_inv.
    + eexists; split; [ reflexivity | ]. apply Inv_hover_cursor, H.
Qed.

Lemma Inv_mouseReleaseEvent event s : Inv s -> Inv (mouseReleaseEvent event s).
Proof.
  intros H. unfold mouseReleaseEvent.
  destruct (button event =? Qt.LeftButton); [ | exact H ].
  revert H. start_inv s. unfold scroll_offset, is_resizing in *.
  reduce_state.
  match goal with |- context [match ?r with Some _ => _ | None => _ end] =>
    destruct r end; reduce_state; finish_inv.
Qed.

Lemma Inv_eventFilter dialog event s :
  Inv s -> Inv (fst (eventFilter dialog event s)).
Proof.
  intros H. unfold eventFilter.
  repeat match goal with
    | |- context [if ?c then _ else _] => destruct c; cbn [fst]
    end;
    auto using Inv_toggle_lock, Inv_toggle_scrolling, Inv_scroll_up,
      Inv_scroll_down, Inv_change_font_color, Inv_toggle_controls,
      Inv_increase_scroll_speed, Inv_decrease_scroll_speed.
Qed.

Lemma Inv_call slot dialog s : Inv s -> Inv (call slot dialog s).
Proof.
  intros H. destruct slot; cbn [call];
    auto using Inv_toggle_lock, Inv_toggle_scrolling, Inv_scroll_up,
      Inv_scroll_down, Inv_change_font_color, Inv_toggle_controls,
      Inv_increase_scroll_speed, Inv_decrease_scroll_speed,
      Inv_emergency_unlock.
Qed.

Lemma Inv_shortcut_activated seq dialog s :
  Inv s -> Inv (shortcut_activated seq dialog s).
Proof.
  intros H. unfold shortcut_activated.
  destruct (connected seq shortcuts); [ apply Inv_call | ]; exact H.
Qed.

Lemma Inv_handle ev s s' : Inv s -> handle ev s = Some s' -> Inv s'.
Proof.
  intros H Hstep. destruct ev; cbn [handle] in Hstep;
    try (injection Hstep as <-).
  - destruct (pb_enabled (lock_button s)); auto using Inv_toggle_lock.
  - destruct (pb_enabled (scroll_button s)); auto using Inv_toggle_scrolling.
  - destruct (cb_enabled (color_button s)); auto using Inv_change_font_color.
  - destruct (co_enabled (font_combo s)); [ | exact H ].
    unfold font_combo_activated.
    destruct (_ && _); [ | exact H ].
    apply Inv_change_font_family.
    generalize (setCurrentIndex (findText fam (co_list (font_combo s)))
                  (co_list (font_combo s))).
    intros entries.
    revert H. start_inv s. unfold scroll_offset, is_resizing in *.
    reduce_state. finish_inv.
  - destruct (sl_enabled (size_slider s)); auto using Inv_size_slider_setValue.
  - destruct (sl_enabled (trans_slider s)); auto using Inv_trans_slider_setValue.
  - destruct (sl_enabled (scroll_slider s)); auto using Inv_scroll_slider_setValue.
  - apply Inv_shortcut_activated, H.
  - apply Inv_eventFilter, H.
  - destruct (tm_active (scroll_timer s)); auto using Inv_auto_scroll.
  - apply Inv_mousePressEvent, H.
  - destruct (Inv_mouseMoveEvent event s H) as (s1 & E & H1). congruence.
  - apply Inv_mouseReleaseEvent, H.
  - apply Inv_document_laid_out, H.
  - apply Inv_set_scroll_offset, H.
Qed.

Lemma reachable_Inv s : reachable s -> Inv s.
Proof.
  induction 1 as [ | s ev s' _ IH Hstep ].
  - apply Inv_startup.
  - exact (Inv_handle ev s s' IH Hstep).
Qed.

(** No event raises in a reachable state. *)
Lemma handle_total ev s : reachable s -> exists s', handle ev s = Some s'.
Proof.
  intros Hs. destruct ev; cbn [handle]; try (eexists; reflexivity).
  destruct (Inv_mouseMoveEvent event s (reachable_Inv s Hs)) as (s' & E & _).
  exists s'. exact E.
Qed.

(** ** Reachability of the sample states *)

Lemma reachable_init : reachable init.
Proof. exact (reachable_startup sample_fonts). Qed.

Lemma reachable_run evs s s' : reachable s -> run evs s = Some s' -> reachable s'.
Proof.
  revert s. induction evs as [ | ev rest IH ]; intros s Hs Hrun; cbn in Hrun.
  - injection Hrun as <-. exact Hs.
  - destruct (handle ev s) as [s1 | ] eqn:E; [ | discriminate ].
    exact (IH s1 (reachable_step s ev s1 Hs E) Hrun).
Qed.

Lemma reachable_locked_window : reachable locked_window.
Proof. exact (reachable_step init LockButtonClicked _ reachable_init eq_refl). Qed.

Lemma reachable_drag_started : reachable drag_started.
Proof. exact (reachable_step init (MousePress left_press) _ reachable_init eq_refl). Qed.

Lemma reachable_locked_resize_started : reachable locked_resize_started.
Proof.
  exact (reachable_step locked_window (MousePress corner_press) _
           reachable_locked_window eq_refl).
Qed.

Lemma reachable_short_text_scrolling : reachable short_text_scrolling.
Proof.
  apply (reachable_run [DocumentLaidOut 3; ScrollButtonClicked] init);
    [ exact reachable_init | reflexivity ].
Qed.

Lemma reachable_long_text_scrolling : reachable long_text_scrolling.
Proof.
  apply (reachable_run [DocumentLaidOut 1000; ScrollButtonClicked] init);
    [ exact reachable_init | reflexivity ].
Qed.

Lemma reachable_locked_long_text : reachable locked_long_text.
Proof.
  apply (reachable_run [DocumentLaidOut 1000; LockButtonClicked] init);
    [ exact reachable_init | reflexivity ].
Qed.

(** ** Lock mode *)

(** C1. In every state the emergency unlock leaves the lock flag false: a
    locked window is unlocked by [toggle_lock], which enables every control
    and clears the read-only flag of the text; an unlocked window is returned
    unchanged.  The [Ctrl+Alt+U] shortcut is connected to exactly this
    operation. *)
Theorem emergency_unlock_unlocks (s : State) :
  locked (emergency_unlock s) = false
  /\ (if locked s
      then emergency_unlock s = toggle_lock s
           /\ all_controls_enabled (emergency_unlock s) = true
           /\ readOnly (text_edit (emergency_unlock s)) = false
      else emergency_unlock s = s)
  /\ (forall dialog,
        shortcut_activated "Ctrl+Alt+U" dialog s = emergency_unlock s).
Proof.
  assert (Hlock : locked s = true -> locked (toggle_lock s) = false
                                     /\ all_controls_enabled (toggle_lock s) = true
                                     /\ readOnly (text_edit (toggle_lock s)) = false).
  { intros E. unfold toggle_lock, all_controls_enabled. reduce_state.
    rewrite E. reduce_state. auto. }
  split; [ | split ].
  - unfold emergency_unlock. destruct (locked s) eqn:E;
      [ apply Hlock; reflexivity | exact E ].
  - unfold emergency_unlock. destruct (locked s) eqn:E; [ | reflexivity ].
    split; [ reflexivity | apply Hlock; reflexivity ].
  - reflexivity.
Qed.

(** The lock and scroll toggle buttons are enabled in every reachable
    state. *)
Lemma toggle_buttons_enabled (s : State) :
  reachable s ->
  pb_enabled (lock_button s) = true /\ pb_enabled (scroll_button s) = true.
Proof.
  intros Hs. destruct (reachable_Inv s Hs) as [_ _ _ Hl Hb _ _ _ _ _ _ _ _ _ _ _ _].
  rewrite Hl, Hb. split; reflexivity.
Qed.

(** Both dispatch paths send [Ctrl+L] to [toggle_lock] and [Ctrl+S] to
    [toggle_scrolling], whatever the lock flag. *)
Lemma lock_and_scroll_keys_dispatch (dialog : QColorDialog) (s : State) :
  eventFilter dialog (key_press Qt.Key_L Qt.ControlModifier) s = (toggle_lock s, true)
  /\ eventFilter dialog (key_press Qt.Key_S Qt.ControlModifier) s = (toggle_scrolling s, true)
  /\ shortcut_activated "Ctrl+L" dialog s = toggle_lock s
  /\ shortcut_activated "Ctrl+S" dialog s = toggle_scrolling s.
Proof. repeat split. Qed.

(** While the window is locked, [eventFilter] consumes every key press
    other than [Ctrl+L] and [Ctrl+S] without calling a slot. *)
Lemma eventFilter_locked_consumes (dialog : QColorDialog) (event : QEvent) (s : State) :
  locked s = true ->
  ev_type event = Qt.KeyPress ->
  key_is Qt.Key_L Qt.ControlModifier event = false ->
  key_is Qt.Key_S Qt.ControlModifier event = false ->
  eventFilter dialog event s = (s, true).
Proof.
  intros Hl Ht HL HS. unfold eventFilter.
  rewrite Ht, Z.eqb_refl, HL, HS, Hl. reflexivity.
Qed.

(** The emergency unlock is reached through its shortcut object only: a
    [Ctrl+Alt+U] key press handed to [eventFilter] in a locked window is
    consumed like any other and does not unlock. *)
Lemma eventFilter_consumes_emergency_key (dialog : QColorDialog) (s : State) :
  locked s = true ->
  eventFilter dialog
    (key_press Qt.Key_U (Z.lor Qt.ControlModifier Qt.AltModifier)) s = (s, true).
Proof.
  intros Hl. apply eventFilter_locked_consumes; auto.
Qed.

(** The slots connected to the shortcut objects run whatever the lock flag:
    none of them reads it. *)
Lemma shortcut_slots_connected (dialog : QColorDialog) (s : State) :
  shortcut_activated "Ctrl+C" dialog s = change_font_color dialog s
  /\ shortcut_activated "Ctrl+Up" dialog s = increase_scroll_speed s
  /\ shortcut_activated "Ctrl+Down" dialog s = decrease_scroll_speed s
  /\ shortcut_activated "Shift+Up" dialog s = scroll_up s
  /\ shortcut_activated "Shift+Down" dialog s = scroll_down s
  /\ shortcut_activated "Ctrl+H" dialog s = toggle_controls s.
Proof. repeat split. Qed.

(** C2. The window locked from the start state is reachable, and in it the
    [activated] signal of the shortcuts that [setup_shortcuts] registers for
    [Ctrl+Up], [Ctrl+H] and [Shift+Down] still runs their slots: the speed
    goes from 1 to 2, the control strip is hidden, and over a long text the
    offset moves by 10, all with the lock flag still set.  Only the key
    presses that go through [eventFilter] are consumed unchanged. *)
Theorem shortcut_slots_run_while_locked :
  reachable locked_window
  /\ locked locked_window = true
  /\ connected "Ctrl+Up" setup_shortcuts = Some slot_increase_scroll_speed
  /\ scroll_speed locked_window = 1
  /\ scroll_speed (shortcut_activated "Ctrl+Up" dialog_cancelled locked_window) = 2
  /\ locked (shortcut_activated "Ctrl+Up" dialog_cancelled locked_window) = true
  /\ control_panel_visible locked_window = true
  /\ control_panel_visible
       (shortcut_activated "Ctrl+H" dialog_cancelled locked_window) = false
  /\ reachable locked_long_text
  /\ scroll_offset locked_long_text = 0
  /\ scroll_offset
       (shortcut_activated "Shift+Down" dialog_cancelled locked_long_text) = 10
  /\ eventFilter dialog_cancelled (key_press Qt.Key_Up Qt.ControlModifier)
       locked_window = (locked_window, true).
Proof.
  split; [ exact reachable_locked_window | ].
  repeat split; try reflexivity.
  exact reachable_locked_long_text.
Qed.

(** ** Scroll speed *)

Lemma increase_scroll_speed_value s :
  Inv s -> scroll_speed (increase_scroll_speed s) = Z.min (scroll_speed s + 1) 10.
Proof.
  start_inv s.
  unfold increase_scroll_speed, scroll_slider_setValue, slider_setValue,
    change_scroll_speed. reduce_state.
  match goal with |- context [?a =? ?b] => destruct (Z.eqb_spec a b) end;
    reduce_state; unfold qBound in *; lia.
Qed.

Lemma decrease_scroll_speed_value s :
  Inv s -> scroll_speed (decrease_scroll_speed s) = Z.max (scroll_speed s - 1) 1.
Proof.
  start_inv s.
  unfold decrease_scroll_speed, scroll_slider_setValue, slider_setValue,
    change_scroll_speed. reduce_state.
  match goal with |- context [?a =? ?b] => destruct (Z.eqb_spec a b) end;
    reduce_state; unfold qBound in *; lia.
Qed.

Lemma scroll_slider_setValue_value v s :
  Inv s -> scroll_speed (scroll_slider_setValue v s) = qBound 1 v 10.
Proof.
  start_inv s.
  unfold scroll_slider_setValue, slider_setValue, change_scroll_speed.
  reduce_state.
  match goal with |- context [?a =? ?b] => destruct (Z.eqb_spec a b) end;
    reduce_state; lia.
Qed.

(** C3. In every reachable state the speed is within 1..10 and stays there
    under every speed operation: [increase_scroll_speed] yields
    [min (speed + 1) 10], so 10 stays 10; [decrease_scroll_speed] yields
    [max (speed - 1) 1], so 1 stays 1; and a change of the speed slider to
    any requested position stores that position bounded to 1..10, every value
    the slider hands to [change_scroll_speed] being within 1..10. *)
Theorem scroll_speed_stays_in_range (s : State) (v : Z) :
  reachable s ->
  1 <= scroll_speed s <= 10
  /\ scroll_speed (increase_scroll_speed s) = Z.min (scroll_speed s + 1) 10
  /\ scroll_speed (decrease_scroll_speed s) = Z.max (scroll_speed s - 1) 1
  /\ (if scroll_speed s =? 10
      then scroll_speed (increase_scroll_speed s) = 10 else True)
  /\ (if scroll_speed s =? 1
      then scroll_speed (decrease_scroll_speed s) = 1 else True)
  /\ 1 <= scroll_speed (increase_scroll_speed s) <= 10
  /\ 1 <= scroll_speed (decrease_scroll_speed s) <= 10
  /\ scroll_speed (scroll_slider_setValue v s) = qBound 1 v 10
  /\ 1 <= scroll_speed (scroll_slider_setValue v s) <= 10
  /\ match snd (slider_setValue v (scroll_slider s)) with
     | Some value =>
         1 <= value <= 10 /\ scroll_speed (change_scroll_speed value s) = value
     | None => True
     end.
Proof.
  intros Hs. pose proof (reachable_Inv s Hs) as H.
  pose proof (inv_scroll_speed s H) as Hr.
  pose proof (inv_scroll_slider s H) as Hsl.
  pose proof (increase_scroll_speed_value s H) as Hinc.
  pose proof (decrease_scroll_speed_value s H) as Hdec.
  pose proof (scroll_slider_setValue_value v s H) as Hset.
  split; [ exact Hr | ].
  split; [ exact Hinc | ].
  split; [ exact Hdec | ].
  split; [ destruct (Z.eqb_spec (scroll_speed s) 10); [ lia | exact I ] | ].
  split; [ destruct (Z.eqb_spec (scroll_speed s) 1); [ lia | exact I ] | ].
  split; [ lia | ].
  split; [ lia | ].
  split; [ exact Hset | ].
  split; [ rewrite Hset; unfold qBound; lia | ].
  unfold slider_setValue. rewrite Hsl. cbn [sl_minimum sl_maximum sl_value].
  destruct (Z.eqb_spec (qBound 1 v 10) (scroll_speed s)); cbn [snd];
    [ exact I | ].
  split; [ unfold qBound; lia | reflexivity ].
Qed.

Lemma scroll_speed_stays_in_range_witness :
  reachable init
  /\ scroll_speed (decrease_scroll_speed init) = Z.max (scroll_speed init - 1) 1
  /\ scroll_speed (scroll_slider_setValue 50 init) = qBound 1 50 10.
Proof.
  split; [ exact reachable_init | ].
  split; apply (scroll_speed_stays_in_range init 50 reachable_init).
Defined.

(** ** Lock round trip *)

Lemma toggle_lock_involutive s : Inv s -> toggle_lock (toggle_lock s) = s.
Proof.
  start_inv s. unfold toggle_lock. reduce_state.
  match goal with |- context [negb ?b] => is_var b; destruct b end;
    reflexivity.
Qed.

(** C4. In every reachable state two calls of [toggle_lock] restore the
    enabled flag of every control and the read-only flag of the text (indeed
    the whole state); in between the five style controls are disabled and the
    text is read-only exactly when the window has become locked; and the lock
    and scroll buttons are enabled before, in between and after. *)
Theorem lock_unlock_round_trip (s : State) :
  reachable s ->
  control_flags (toggle_lock (toggle_lock s)) = control_flags s
  /\ toggle_lock (toggle_lock s) = s
  /\ locked (toggle_lock s) = negb (locked s)
  /\ control_flags s =
     (if locked s
      then [false; false; false; false; false; true; true; true]
      else [true; true; true; true; true; true; true; false])
  /\ control_flags (toggle_lock s) =
     (if locked s
      then [true; true; true; true; true; true; true; false]
      else [false; false; false; false; false; true; true; true])
  /\ pb_enabled (lock_button s) = true
  /\ pb_enabled (scroll_button s) = true
  /\ pb_enabled (lock_button (toggle_lock s)) = true
  /\ pb_enabled (scroll_button (toggle_lock s)) = true
  /\ pb_enabled (lock_button (toggle_lock (toggle_lock s))) = true
  /\ pb_enabled (scroll_button (toggle_lock (toggle_lock s))) = true.
Proof.
  intros Hs. pose proof (reachable_Inv s Hs) as H.
  pose proof (toggle_lock_involutive s H) as Hinv.
  rewrite Hinv.
  destruct (toggle_buttons_enabled s Hs) as [Hl Hb].
  assert (Hflags : control_flags s =
     (if locked s
      then [false; false; false; false; false; true; true; true]
      else [true; true; true; true; true; true; true; false])).
  { unfold control_flags.
    rewrite (inv_font_combo s H), (inv_size_slider s H), (inv_color_button s H),
      (inv_trans_slider s H), (inv_scroll_slider s H), (inv_readOnly s H), Hl, Hb.
    cbn [sl_enabled]. destruct (locked s); reflexivity. }
  assert (Hmid : control_flags (toggle_lock s) =
     (if locked s
      then [true; true; true; true; true; true; true; false]
      else [false; false; false; false; false; true; true; true])).
  { unfold toggle_lock, control_flags. reduce_state.
    destruct (locked s); reflexivity. }
  repeat split; auto.
  - unfold toggle_lock. reduce_state. destruct (locked s); reflexivity.
  - unfold toggle_lock. reduce_state. destruct (locked s); reflexivity.
  - unfold toggle_lock. reduce_state. destruct (locked s); reflexivity.
Qed.

Lemma lock_unlock_round_trip_witness :
  reachable init
  /\ control_flags (toggle_lock (toggle_lock init)) = control_flags init
  /\ toggle_lock (toggle_lock init) = init.
Proof.
  split; [ exact reachable_init | ].
  split; apply (lock_unlock_round_trip init reachable_init).
Defined.

(** ** Scrolling *)

Lemma set_scroll_offset_value v s :
  scroll_offset (set_scroll_offset v s) =
  qBound (sb_minimum (verticalScrollBar (text_edit s))) v
         (sb_maximum (verticalScrollBar (text_edit s))).
Proof. reflexivity. Qed.

(** Setting the offset touches nothing but the scroll bar's value. *)
Lemma set_scroll_offset_frame v s :
  scroll_speed (set_scroll_offset v s) = scroll_speed s
  /\ scrolling (set_scroll_offset v s) = scrolling s
  /\ locked (set_scroll_offset v s) = locked s
  /\ scroll_timer (set_scroll_offset v s) = scroll_timer s
  /\ sb_minimum (verticalScrollBar (text_edit (set_scroll_offset v s))) =
     sb_minimum (verticalScrollBar (text_edit s))
  /\ sb_maximum (verticalScrollBar (text_edit (set_scroll_offset v s))) =
     sb_maximum (verticalScrollBar (text_edit s)).
Proof. repeat split. Qed.

Lemma ticks_exact (n : nat) : forall s,
  Inv s -> tm_active (scroll_timer s) = true ->
  scroll_offset s + Z.of_nat n * scroll_speed s
    <= sb_maximum (verticalScrollBar (text_edit s)) ->
  scroll_offset (ticks n s) = scroll_offset s + Z.of_nat n * scroll_speed s.
Proof.
  induction n as [ | n IH ]; intros s H Hact Hroom.
  - cbn. lia.
  - cbn [ticks]. rewrite Hact.
    pose proof (inv_scroll_speed s H) as Hsp.
    pose proof (inv_scroll_range s H) as Hrg.
    assert (Hnn : 0 <= Z.of_nat n * scroll_speed s)
      by (apply Z.mul_nonneg_nonneg; lia).
    rewrite Nat2Z.inj_succ, Z.mul_succ_l in Hroom |- *.
    assert (Hone : scroll_offset (auto_scroll s) = scroll_offset s + scroll_speed s).
    { unfold auto_scroll. rewrite set_scroll_offset_value.
      apply qBound_inside. lia. }
    destruct (set_scroll_offset_frame (scroll_offset s + scroll_speed s) s)
      as (Fsp & _ & _ & Ftm & _ & Fmax).
    fold (auto_scroll s) in Fsp, Ftm, Fmax.
    rewrite IH.
    + rewrite Hone, Fsp. lia.
    + apply Inv_auto_scroll, H.
    + rewrite Ftm. exact Hact.
    + rewrite Hone, Fsp, Fmax. lia.
Qed.

(** C5, as the code has it.  While auto-scroll is active every tick sets the
    offset to [min maximum (offset + speed)], the scroll bar bounding what it
    is given; the advance is exactly the speed on each of [n] consecutive
    ticks (five, or any other number) as long as [offset + n * speed] does not
    pass the scroll bar's maximum.  The timer runs with the 50 ms period and
    the speed is within 1..10. *)
Theorem auto_scroll_exact_within_range (s : State) (n : nat) :
  reachable s ->
  scrolling s = true ->
  scroll_offset s + Z.of_nat n * scroll_speed s
    <= sb_maximum (verticalScrollBar (text_edit s)) ->
  (forall k, (k <= n)%nat ->
     scroll_offset (ticks k s) = scroll_offset s + Z.of_nat k * scroll_speed s)
  /\ scroll_offset (ticks 1 s) =
     Z.min (sb_maximum (verticalScrollBar (text_edit s)))
           (scroll_offset s + scroll_speed s)
  /\ scroll_timer s = mkTimer true 50
  /\ 1 <= scroll_speed s <= 10.
Proof.
  intros Hs Hscr Hroom. pose proof (reachable_Inv s Hs) as H.
  pose proof (inv_scroll_speed s H) as Hsp.
  pose proof (inv_scroll_range s H) as Hrg.
  assert (Hact : tm_active (scroll_timer s) = true)
    by (rewrite (inv_timer_active s H); exact Hscr).
  split; [ | split; [ | split ] ].
  - intros k Hk. apply ticks_exact; auto.
    assert (Z.of_nat k * scroll_speed s <= Z.of_nat n * scroll_speed s)
      by (apply Z.mul_le_mono_nonneg_r; lia).
    lia.
  - cbn [ticks]. rewrite Hact. unfold auto_scroll.
    rewrite set_scroll_offset_value. unfold qBound. lia.
  - pose proof (inv_timer_interval s H Hscr) as Hint.
    destruct (scroll_timer s) as [a i]. cbn in Hact, Hint. subst. reflexivity.
  - exact Hsp.
Qed.

Lemma auto_scroll_exact_within_range_witness :
  reachable long_text_scrolling
  /\ scrolling long_text_scrolling = true
  /\ scroll_offset long_text_scrolling + Z.of_nat 5 * scroll_speed long_text_scrolling
       <= sb_maximum (verticalScrollBar (text_edit long_text_scrolling))
  /\ scroll_offset (ticks 5 long_text_scrolling) =
     scroll_offset long_text_scrolling
     + Z.of_nat 5 * scroll_speed long_text_scrolling.
Proof.
  assert (Hroom : scroll_offset long_text_scrolling
                  + Z.of_nat 5 * scroll_speed long_text_scrolling
                  <= sb_maximum (verticalScrollBar (text_edit long_text_scrolling)))
    by (vm_compute; discriminate).
  split; [ exact reachable_long_text_scrolling | ].
  split; [ reflexivity | ].
  split; [ exact Hroom | ].
  apply (auto_scroll_exact_within_range long_text_scrolling 5
           reachable_long_text_scrolling eq_refl Hroom).
  apply Nat.le_refl.
Defined.

(** C5 as stated fails where the text ends.  Over a text three units taller
    than the viewport, with auto-scroll active at speed 1, the first three
    ticks advance by one unit each and the fourth and fifth by none; with an
    empty text no tick advances at all. *)
Lemma auto_scroll_stops_at_maximum :
  reachable short_text_scrolling
  /\ scrolling short_text_scrolling = true
  /\ tm_active (scroll_timer short_text_scrolling) = true
  /\ scroll_speed short_text_scrolling = 1
  /\ scroll_offset short_text_scrolling = 0
  /\ scroll_offset (ticks 3 short_text_scrolling) = 3
  /\ scroll_offset (ticks 4 short_text_scrolling) = 3
  /\ scroll_offset (ticks 5 short_text_scrolling)
     <> scroll_offset short_text_scrolling
        + 5 * scroll_speed short_text_scrolling
  /\ scroll_offset (ticks 1 (toggle_scrolling init))
     <> scroll_offset (toggle_scrolling init)
        + scroll_speed (toggle_scrolling init).
Proof.
  split; [ exact reachable_short_text_scrolling | ].
  repeat split; try reflexivity; vm_compute; discriminate.
Qed.

(** C6 as stated fails at the ends of the scroll range and on the shortcut
    path.  In the start state the offset is 0 and a nudge up leaves it at 0;
    over the short text a nudge down from 0 stops at 3; and in a locked
    window over a long text the [Shift+Down] shortcut object still moves the
    offset from 0 to 10. *)
Lemma nudge_bounded_and_not_lock_gated :
  reachable init
  /\ scroll_offset init = 0
  /\ scroll_offset (scroll_up init) <> scroll_offset init - 10
  /\ fst (eventFilter dialog_cancelled (key_press Qt.Key_Up Qt.ShiftModifier) init)
     = scroll_up init
  /\ scroll_offset (scroll_down short_text_scrolling)
     <> scroll_offset short_text_scrolling + 10
  /\ reachable locked_long_text
  /\ locked locked_long_text = true
  /\ scroll_offset locked_long_text = 0
  /\ scroll_offset
       (shortcut_activated "Shift+Down" dialog_cancelled locked_long_text) = 10.
Proof.
  split; [ exact reachable_init | ].
  repeat split; try reflexivity; try exact reachable_locked_long_text;
    vm_compute; discriminate.
Qed.

(** C6, as the code has it.  A nudge sets the offset to [offset - 10]
    bounded below by the scroll bar's minimum, or to [offset + 10] bounded
    above by its maximum, so it moves by exactly 10 units whenever that stays
    in range; the result does not depend on the speed or on whether
    auto-scroll is active.  A [Shift+Up] / [Shift+Down] key press handed to
    [eventFilter] runs the nudge in an unlocked window and is consumed with
    the state unchanged in a locked one. *)
Theorem nudge_moves_ten_within_range (s : State) (dialog : QColorDialog) :
  reachable s ->
  scroll_offset (scroll_up s) =
    Z.max (sb_minimum (verticalScrollBar (text_edit s))) (scroll_offset s - 10)
  /\ scroll_offset (scroll_down s) =
    Z.min (sb_maximum (verticalScrollBar (text_edit s))) (scroll_offset s + 10)
  /\ (if sb_minimum (verticalScrollBar (text_edit s)) <=? scroll_offset s - 10
      then scroll_offset (scroll_up s) = scroll_offset s - 10
      else scroll_offset (scroll_up s) = sb_minimum (verticalScrollBar (text_edit s)))
  /\ (if scroll_offset s + 10 <=? sb_maximum (verticalScrollBar (text_edit s))
      then scroll_offset (scroll_down s) = scroll_offset s + 10
      else scroll_offset (scroll_down s) = sb_maximum (verticalScrollBar (text_edit s)))
  /\ (forall speed,
        scroll_offset (scroll_up (s{{ scroll_speed := speed }})) = scroll_offset (scroll_up s)
        /\ scroll_offset (scroll_down (s{{ scroll_speed := speed }})) = scroll_offset (scroll_down s))
  /\ scroll_offset (scroll_up (toggle_scrolling s)) = scroll_offset (scroll_up s)
  /\ scroll_offset (scroll_down (toggle_scrolling s)) = scroll_offset (scroll_down s)
  /\ (if locked s
      then eventFilter dialog (key_press Qt.Key_Up Qt.ShiftModifier) s = (s, true)
           /\ eventFilter dialog (key_press Qt.Key_Down Qt.ShiftModifier) s = (s, true)
      else eventFilter dialog (key_press Qt.Key_Up Qt.ShiftModifier) s = (scroll_up s, true)
           /\ eventFilter dialog (key_press Qt.Key_Down Qt.ShiftModifier) s = (scroll_down s, true)
           /\ shortcut_activated "Shift+Up" dialog s = scroll_up s
           /\ shortcut_activated "Shift+Down" dialog s = scroll_down s).
Proof.
  intros Hs. pose proof (reachable_Inv s Hs) as H.
  pose proof (inv_scroll_range s H) as Hrg.
  assert (Hup : scroll_offset (scroll_up s) =
    Z.max (sb_minimum (verticalScrollBar (text_edit s))) (scroll_offset s - 10)).
  { unfold scroll_up. rewrite set_scroll_offset_value. unfold qBound. lia. }
  assert (Hdown : scroll_offset (scroll_down s) =
    Z.min (sb_maximum (verticalScrollBar (text_edit s))) (scroll_offset s + 10)).
  { unfold scroll_down. rewrite set_scroll_offset_value. unfold qBound. lia. }
  split; [ exact Hup | ].
  split; [ exact Hdown | ].
  split.
  { destruct (Z.leb_spec (sb_minimum (verticalScrollBar (text_edit s)))
                         (scroll_offset s - 10)); lia. }
  split.
  { destruct (Z.leb_spec (scroll_offset s + 10)
                         (sb_maximum (verticalScrollBar (text_edit s)))); lia. }
  split; [ intros speed; split; reflexivity | ].
  split.
  { unfold toggle_scrolling. reduce_state. destruct (scrolling s); reflexivity. }
  split.
  { unfold toggle_scrolling. reduce_state. destruct (scrolling s); reflexivity. }
  unfold eventFilter. cbn. destruct (locked s); repeat split; reflexivity.
Qed.

Lemma nudge_moves_ten_within_range_witness :
  reachable long_text_scrolling
  /\ scroll_offset (scroll_down long_text_scrolling) =
     Z.min (sb_maximum (verticalScrollBar (text_edit long_text_scrolling)))
           (scroll_offset long_text_scrolling + 10).
Proof.
  split; [ exact reachable_long_text_scrolling | ].
  apply (nudge_moves_ten_within_range long_text_scrolling dialog_cancelled
           reachable_long_text_scrolling).
Defined.

(** ** Resize and drag gestures *)

Lemma resize_start_recorded s :
  Inv s -> is_resizing s = true ->
  exists start_pos start_size,
    resize_start_pos s = Some start_pos /\ resize_start_size s = Some start_size.
Proof.
  intros H Hr. destruct (inv_resize_start s H Hr) as [Hp Hz].
  destruct (resize_start_pos s) as [p | ]; [ | congruence ].
  destruct (resize_start_size s) as [z | ]; [ | congruence ].
  exists p, z. split; reflexivity.
Qed.

(** A press in the hotspot starts a resize, locked or not: the pointer's
    screen position and the current size are recorded, the dragging flag is
    cleared, and neither the origin nor the lock flag changes. *)
Lemma corner_press_starts_resize event s :
  resize_enabled s = true -> in_corner event s = true ->
  resizing (mousePressEvent event s) = Some true
  /\ resize_start_pos (mousePressEvent event s) = Some (globalPos event)
  /\ resize_start_size (mousePressEvent event s) = Some (win_size s)
  /\ dragging (mousePressEvent event s) = false
  /\ locked (mousePressEvent event s) = locked s
  /\ win_pos (mousePressEvent event s) = win_pos s
  /\ win_size (mousePressEvent event s) = win_size s.
Proof.
  intros He Hc. unfold mousePressEvent. rewrite He, Hc. repeat split.
Qed.

(** C7 as stated fails for a move without the left button and for a very
    large displacement.  A resize started by a right-button press in the
    hotspot is flagged, yet a move with that button held leaves the 600x400
    window at its size instead of adding the displacement (10, 10); and in a
    resize with the left button held, a move twenty million units to the
    right leaves the width at the toolkit's maximum 16777215, not at the
    starting width plus the displacement. *)
Lemma resize_needs_left_button_and_is_capped :
  reachable (mousePressEvent right_corner_press init)
  /\ is_resizing (mousePressEvent right_corner_press init) = true
  /\ resize_start_size (mousePressEvent right_corner_press init)
     = Some (mkSize 600 400)
  /\ option_map win_size
       (mouseMoveEvent move_right_held (mousePressEvent right_corner_press init))
     = Some (mkSize 600 400)
  /\ reachable (mousePressEvent corner_press init)
  /\ option_map win_size
       (mouseMoveEvent move_far_right (mousePressEvent corner_press init))
     = Some (mkSize 16777215 400).
Proof.
  split.
  { exact (reachable_step init (MousePress right_corner_press) _
             reachable_init eq_refl). }
  split; [ reflexivity | ]. split; [ reflexivity | ].
  split; [ reflexivity | ].
  split; [ | reflexivity ].
  exact (reachable_step init (MousePress corner_press) _ reachable_init eq_refl).
Qed.

(** C7, as the code has it.  During a resize gesture a pointer move with
    the left button, and no other, held succeeds and sets the window size to
    the recorded starting size plus the pointer's displacement from the
    recorded starting position, each dimension floored on its own at the
    minimum size 300x200 and capped at the toolkit's maximum widget size
    16777215: whatever the displacement, the width is at least 300 and the
    height at least 200.  The gesture and its recorded start stay as they
    were, so the next move is measured from the same start. *)
Theorem resize_floored_at_minimum (s : State) (event : QMouseEvent) :
  reachable s ->
  is_resizing s = true ->
  buttons event = Qt.LeftButton ->
  exists start_pos start_size s',
    resize_start_pos s = Some start_pos
    /\ resize_start_size s = Some start_size
    /\ mouseMoveEvent event s = Some s'
    /\ width (win_size s') =
       Z.min QWIDGETSIZE_MAX
         (Z.max 300 (width start_size + (px (globalPos event) - px start_pos)))
    /\ height (win_size s') =
       Z.min QWIDGETSIZE_MAX
         (Z.max 200 (height start_size + (py (globalPos event) - py start_pos)))
    /\ 300 <= width (win_size s')
    /\ 200 <= height (win_size s')
    /\ is_resizing s' = true
    /\ resize_start_pos s' = Some start_pos
    /\ resize_start_size s' = Some start_size.
Proof.
  intros Hs Hr Hb. pose proof (reachable_Inv s Hs) as H.
  destruct (resize_start_recorded s H Hr) as (p & z & Hp & Hz).
  exists p, z. unfold mouseMoveEvent.
  rewrite (inv_resize_enabled s H), Hr, Hb, Hp, Hz.
  cbn [andb]. rewrite Z.eqb_refl.
  eexists. split; [ reflexivity | ]. split; [ reflexivity | ].
  split; [ reflexivity | ].
  unfold resize. rewrite (inv_minimumSize s H).
  cbn [width height point_sub px py]. unfold QWIDGETSIZE_MAX.
  split; [ cbn; lia | ]. split; [ cbn; lia | ].
  split; [ cbn; lia | ]. split; [ cbn; lia | ].
  split; [ exact Hr | ]. split; [ exact Hp | exact Hz ].
Qed.

Lemma resize_floored_at_minimum_witness :
  reachable locked_resize_started
  /\ is_resizing locked_resize_started = true
  /\ buttons move_to_origin = Qt.LeftButton
  /\ exists start_pos start_size s',
       resize_start_pos locked_resize_started = Some start_pos
       /\ resize_start_size locked_resize_started = Some start_size
       /\ mouseMoveEvent move_to_origin locked_resize_started = Some s'
       /\ width (win_size s') =
          Z.min QWIDGETSIZE_MAX
            (Z.max 300 (width start_size
                        + (px (globalPos move_to_origin) - px start_pos)))
       /\ height (win_size s') =
          Z.min QWIDGETSIZE_MAX
            (Z.max 200 (height start_size
                        + (py (globalPos move_to_origin) - py start_pos)))
       /\ 300 <= width (win_size s')
       /\ 200 <= height (win_size s')
       /\ is_resizing s' = true
       /\ resize_start_pos s' = Some start_pos
       /\ resize_start_size s' = Some start_size.
Proof.
  split; [ exact reachable_locked_resize_started | ].
  split; [ reflexivity | ].
  split; [ reflexivity | ].
  exact (resize_floored_at_minimum locked_resize_started move_to_origin
           reachable_locked_resize_started eq_refl eq_refl).
Defined.

Lemma hover_cursor_frame event s :
  win_pos (hover_cursor event s) = win_pos s
  /\ dragging (hover_cursor event s) = dragging s
  /\ drag_position (hover_cursor event s) = drag_position s
  /\ locked (hover_cursor event s) = locked s
  /\ scroll_mode (hover_cursor event s) = scroll_mode s.
Proof.
  unfold hover_cursor.
  destruct (resize_enabled s); [ destruct (in_corner event s) | ];
    repeat split.
Qed.

Lemma toggle_lock_frame s :
  win_pos (toggle_lock s) = win_pos s
  /\ dragging (toggle_lock s) = dragging s
  /\ drag_position (toggle_lock s) = drag_position s
  /\ scroll_mode (toggle_lock s) = scroll_mode s
  /\ scroll_offset (toggle_lock s) = scroll_offset s.
Proof.
  unfold toggle_lock, scroll_mode, scroll_offset. reduce_state.
  destruct (locked s); repeat split.
Qed.

(** C8. While the lock flag is set, a mouse press leaves the window origin
    and the recorded drag offset alone and never sets the dragging flag (it
    clears it when the press is in the hotspot); a mouse move succeeds and
    leaves the origin, the dragging flag and the drag offset alone.  A press
    in the 20x20 hotspot at the bottom-right corner starts a resize all the
    same, recording the pointer position and the window size, and the window
    stays locked. *)
Theorem locked_window_never_drags (s : State) (event : QMouseEvent) :
  reachable s ->
  locked s = true ->
  win_pos (mousePressEvent event s) = win_pos s
  /\ drag_position (mousePressEvent event s) = drag_position s
  /\ dragging (mousePressEvent event s) = dragging s && negb (in_corner event s)
  /\ (exists s', mouseMoveEvent event s = Some s'
                 /\ win_pos s' = win_pos s
                 /\ dragging s' = dragging s
                 /\ drag_position s' = drag_position s
                 /\ locked s' = true)
  /\ (if in_corner event s
      then resizing (mousePressEvent event s) = Some true
           /\ resize_start_pos (mousePressEvent event s) = Some (globalPos event)
           /\ resize_start_size (mousePressEvent event s) = Some (win_size s)
           /\ locked (mousePressEvent event s) = true
      else resize_start_pos (mousePressEvent event s) = resize_start_pos s
           /\ resize_start_size (mousePressEvent event s) = resize_start_size s).
Proof.
  intros Hs Hl. pose proof (reachable_Inv s Hs) as H.
  pose proof (inv_resize_enabled s H) as He.
  destruct (toggle_lock_frame s) as (Tp & Td & To & _ & _).
  assert (Hpress : in_corner event s = false ->
            mousePressEvent event s =
            if lock_button_underMouse event then toggle_lock s else s).
  { intros Hc. unfold mousePressEvent. rewrite He, Hc, Hl. reflexivity. }
  split; [ | split; [ | split; [ | split ] ] ].
  - destruct (in_corner event s) eqn:Hc.
    + apply (corner_press_starts_resize event s He Hc).
    + rewrite (Hpress eq_refl). destruct (lock_button_underMouse event); auto.
  - destruct (in_corner event s) eqn:Hc.
    + unfold mousePressEvent. rewrite He, Hc. reflexivity.
    + rewrite (Hpress eq_refl). destruct (lock_button_underMouse event); auto.
  - destruct (in_corner event s) eqn:Hc.
    + rewrite andb_false_r. apply (corner_press_starts_resize event s He Hc).
    + rewrite andb_true_r, (Hpress eq_refl).
      destruct (lock_button_underMouse event); auto.
  - destruct (Inv_mouseMoveEvent event s H) as (s' & E & _).
    exists s'. split; [ exact E | ].
    unfold mouseMoveEvent in E. rewrite Hl in E. cbn [negb andb] in E.
    destruct (resize_enabled s && is_resizing s && (buttons event =? Qt.LeftButton)).
    + destruct (resize_start_pos s); [ | discriminate ].
      destruct (resize_start_size s); [ | discriminate ].
      injection E as <-. repeat split. exact Hl.
    + injection E as <-.
      destruct (hover_cursor_frame event s) as (Fp & Fd & Fo & Fl & _).
      rewrite Fl. auto.
  - destruct (in_corner event s) eqn:Hc.
    + destruct (corner_press_starts_resize event s He Hc)
        as (R1 & R2 & R3 & _ & R5 & _).
      rewrite R5. auto.
    + rewrite (Hpress eq_refl). destruct (lock_button_underMouse event);
        [ | split; reflexivity ].
      unfold toggle_lock. reduce_state. destruct (locked s); split; reflexivity.
Qed.

Lemma locked_window_never_drags_witness :
  reachable locked_window
  /\ locked locked_window = true
  /\ win_pos (mousePressEvent left_press locked_window) = win_pos locked_window
  /\ dragging (mousePressEvent left_press locked_window) =
     dragging locked_window && negb (in_corner left_press locked_window).
Proof.
  split; [ exact reachable_locked_window | ].
  split; [ reflexivity | ].
  split; apply (locked_window_never_drags locked_window left_press
                  reachable_locked_window eq_refl).
Defined.

(** The release of a button other than the left one clears nothing: with a
    drag started by the left button, the release of the right button leaves
    the dragging flag set; and a resize started by a right-button press in
    the hotspot is still flagged after that button is released. *)
Lemma other_button_release_keeps_flags :
  reachable drag_started
  /\ dragging drag_started = true
  /\ dragging (mouseReleaseEvent right_release drag_started) = true
  /\ reachable (mousePressEvent right_corner_press init)
  /\ is_resizing
       (mouseReleaseEvent right_corner_release
          (mousePressEvent right_corner_press init)) = true.
Proof.
  split; [ exact reachable_drag_started | ].
  split; [ reflexivity | ].
  split; [ reflexivity | ].
  split; [ | reflexivity ].
  exact (reachable_step init (MousePress right_corner_press) _
           reachable_init eq_refl).
Qed.

(** What the release handler does do: the release of the left button
    leaves the dragging flag false and the resizing flag not set (false if
    the attribute exists, still absent otherwise); the handler does nothing
    for any other button. *)
Lemma left_release_clears_gesture_flags (s : State) (event : QMouseEvent) :
  if button event =? Qt.LeftButton
  then dragging (mouseReleaseEvent event s) = false
       /\ is_resizing (mouseReleaseEvent event s) = false
       /\ resizing (mouseReleaseEvent event s) =
          match resizing s with
          | Some _ => Some false
          | None => None
          end
  else mouseReleaseEvent event s = s.
Proof.
  unfold mouseReleaseEvent, is_resizing.
  destruct (button event =? Qt.LeftButton); [ | reflexivity ].
  open_state s. reduce_state.
  match goal with |- context [match ?r with Some _ => _ | None => _ end] =>
    destruct r end; repeat split.
Qed.

Lemma reachable_stuck_resize : reachable stuck_resize.
Proof.
  apply (reachable_run
           [LockButtonClicked; MousePress right_corner_press;
            MouseRelease right_corner_release] init);
    [ exact reachable_init | reflexivity ].
Qed.

(** C9. The release handler misses the gesture a press can start with
    another button.  In the locked window a right-button press in the hotspot
    sets the resizing flag (the hotspot branch of the press handler tests no
    button) and the release of that button leaves it set (the release handler
    tests for the left one).  The stuck flag persists into the next press: a
    left-button press in the middle of the window, ignored because the window
    is locked, and a move with that button held resize the 600x400 window to
    310x210. *)
Theorem right_release_leaves_resize_stuck :
  reachable stuck_resize
  /\ locked stuck_resize = true
  /\ button right_corner_release = Qt.RightButton
  /\ is_resizing stuck_resize = true
  /\ win_size stuck_resize = mkSize 600 400
  /\ mousePressEvent left_press stuck_resize = stuck_resize
  /\ option_map win_size
       (mouseMoveEvent move_left_held (mousePressEvent left_press stuck_resize))
     = Some (mkSize 310 210)
  /\ option_map locked
       (mouseMoveEvent move_left_held (mousePressEvent left_press stuck_resize))
     = Some true.
Proof.
  split; [ exact reachable_stuck_resize | ].
  repeat split; reflexivity.
Qed.

(** ** Scroll mode *)

Lemma toggle_scrolling_mode s :
  scroll_mode (toggle_scrolling s) =
  (negb (scrolling s),
   if scrolling s then timer_stop (scroll_timer s) else mkTimer true 50).
Proof.
  unfold toggle_scrolling, scroll_mode. reduce_state.
  destruct (scrolling s); reflexivity.
Qed.

Lemma scroll_slider_setValue_mode v s :
  scroll_mode (scroll_slider_setValue v s) = scroll_mode s.
Proof.
  unfold scroll_slider_setValue, slider_setValue.
  destruct (_ =? _); reflexivity.
Qed.

Lemma increase_scroll_speed_mode s :
  scroll_mode (increase_scroll_speed s) = scroll_mode s.
Proof.
  unfold increase_scroll_speed. rewrite scroll_slider_setValue_mode. reflexivity.
Qed.

Lemma decrease_scroll_speed_mode s :
  scroll_mode (decrease_scroll_speed s) = scroll_mode s.
Proof.
  unfold decrease_scroll_speed. rewrite scroll_slider_setValue_mode. reflexivity.
Qed.

Lemma size_slider_setValue_mode v s :
  scroll_mode (size_slider_setValue v s) = scroll_mode s.
Proof.
  unfold size_slider_setValue, slider_setValue.
  destruct (_ =? _); reflexivity.
Qed.

Lemma trans_slider_setValue_mode v s :
  scroll_mode (trans_slider_setValue v s) = scroll_mode s.
Proof.
  unfold trans_slider_setValue, slider_setValue.
  destruct (_ =? _); reflexivity.
Qed.

Lemma change_font_color_mode dialog s :
  scroll_mode (change_font_color dialog s) = scroll_mode s.
Proof.
  unfold change_font_color.
  destruct (exec_ dialog); [ destruct (isValid _) | ]; reflexivity.
Qed.

Lemma toggle_lock_mode s : scroll_mode (toggle_lock s) = scroll_mode s.
Proof. apply toggle_lock_frame. Qed.

Lemma emergency_unlock_mode s : scroll_mode (emergency_unlock s) = scroll_mode s.
Proof.
  unfold emergency_unlock. destruct (locked s);
    [ apply toggle_lock_mode | reflexivity ].
Qed.

Lemma mousePressEvent_mode event s :
  scroll_mode (mousePressEvent event s) = scroll_mode s.
Proof.
  unfold mousePressEvent.
  destruct (resize_enabled s && in_corner event s); [ reflexivity | ].
  destruct (locked s && lock_button_underMouse event);
    [ apply toggle_lock_mode | ].
  destruct (negb (locked s) && (button event =? Qt.LeftButton)); reflexivity.
Qed.

Lemma mouseMoveEvent_mode event s s' :
  mouseMoveEvent event s = Some s' -> scroll_mode s' = scroll_mode s.
Proof.
  unfold mouseMoveEvent.
  destruct (resize_enabled s && is_resizing s && (buttons event =? Qt.LeftButton)).
  - destruct (resize_start_pos s); [ | discriminate ].
    destruct (resize_start_size s); [ | discriminate ].
    intros E. injection E as <-. reflexivity.
  - destruct (negb (locked s) && dragging s && (buttons event =? Qt.LeftButton)).
    + destruct (drag_position s); [ | discriminate ].
      intros E. injection E as <-.
      etransitivity; [ apply hover_cursor_frame | reflexivity ].
    + intros E. injection E as <-. apply hover_cursor_frame.
Qed.

Lemma mouseReleaseEvent_mode event s :
  scroll_mode (mouseReleaseEvent event s) = scroll_mode s.
Proof.
  unfold mouseReleaseEvent.
  destruct (button event =? Qt.LeftButton); [ | reflexivity ].
  open_state s. reduce_state.
  match goal with |- context [match ?r with Some _ => _ | None => _ end] =>
    destruct r end; reflexivity.
Qed.

(** Every slot but [toggle_scrolling] leaves the scroll mode alone. *)
Lemma call_mode slot dialog s :
  scroll_mode (call slot dialog s) =
  match slot with
  | slot_toggle_scrolling => scroll_mode (toggle_scrolling s)
  | _ => scroll_mode s
  end.
Proof.
  destruct slot; cbn [call]; try reflexivity.
  - apply toggle_lock_mode.
  - apply change_font_color_mode.
  - apply increase_scroll_speed_mode.
  - apply decrease_scroll_speed_mode.
  - apply emergency_unlock_mode.
Qed.

Lemma handle_mode ev s s' :
  handle ev s = Some s' ->
  scroll_mode s' =
  if calls_toggle_scrolling ev s then scroll_mode (toggle_scrolling s)
  else scroll_mode s.
Proof.
  destruct ev; cbn [handle calls_toggle_scrolling];
    try (intros E; injection E as <-).
  - destruct (pb_enabled (lock_button s)); [ apply toggle_lock_mode | reflexivity ].
  - destruct (pb_enabled (scroll_button s)); reflexivity.
  - destruct (cb_enabled (color_button s));
      [ apply change_font_color_mode | reflexivity ].
  - destruct (co_enabled (font_combo s)); [ | reflexivity ].
    unfold font_combo_activated. destruct (_ && _); reflexivity.
  - destruct (sl_enabled (size_slider s));
      [ apply size_slider_setValue_mode | reflexivity ].
  - destruct (sl_enabled (trans_slider s));
      [ apply trans_slider_setValue_mode | reflexivity ].
  - destruct (sl_enabled (scroll_slider s));
      [ apply scroll_slider_setValue_mode | reflexivity ].
  - unfold shortcut_activated.
    destruct (connected seq shortcuts) as [slot | ]; [ | reflexivity ].
    rewrite call_mode. destruct slot; reflexivity.
  - unfold eventFilter.
    destruct (ev_type event =? Qt.KeyPress); [ | reflexivity ].
    destruct (key_is Qt.Key_L Qt.ControlModifier event);
      [ apply toggle_lock_mode | ].
    destruct (key_is Qt.Key_S Qt.ControlModifier event); [ reflexivity | ].
    cbn [andb negb fst].
    repeat match goal with
      | |- context [if ?c then _ else _] => destruct c; cbn [fst]
      end;
      auto using change_font_color_mode, increase_scroll_speed_mode,
        decrease_scroll_speed_mode.
  - destruct (tm_active (scroll_timer s)); reflexivity.
  - apply mousePressEvent_mode.
  - apply mouseMoveEvent_mode.
  - apply mouseReleaseEvent_mode.
  - reflexivity.
  - reflexivity.
Qed.

(** C10. In every reachable state the timer is active exactly when the
    scrolling flag is set.  The start state, whatever the font database, has
    the flag false and the timer stopped; [toggle_scrolling] negates the flag and leaves the timer started
    with the 50 ms period when the flag has become true and stopped when it
    has become false; and every event either calls [toggle_scrolling], with
    that effect, or leaves both the flag and the timer as they were. *)
Theorem timer_active_iff_scrolling (s : State) :
  reachable s ->
  tm_active (scroll_timer s) = scrolling s
  /\ scrolling init = false
  /\ tm_active (scroll_timer init) = false
  /\ (forall families,
        scrolling (startup families) = false
        /\ tm_active (scroll_timer (startup families)) = false)
  /\ scrolling (toggle_scrolling s) = negb (scrolling s)
  /\ tm_active (scroll_timer (toggle_scrolling s)) = negb (tm_active (scroll_timer s))
  /\ scroll_timer (toggle_scrolling s) =
     (if scrolling s then timer_stop (scroll_timer s) else mkTimer true 50)
  /\ (forall ev,
        exists s', handle ev s = Some s'
                   /\ scroll_mode s' =
                      if calls_toggle_scrolling ev s
                      then scroll_mode (toggle_scrolling s)
                      else scroll_mode s)
  /\ (forall slot dialog,
        scroll_mode (call slot dialog s) =
        match slot with
        | slot_toggle_scrolling => scroll_mode (toggle_scrolling s)
        | _ => scroll_mode s
        end).
Proof.
  intros Hs. pose proof (reachable_Inv s Hs) as H.
  pose proof (inv_timer_active s H) as Ht.
  pose proof (toggle_scrolling_mode s) as Hm.
  unfold scroll_mode in Hm. injection Hm as Hflag Htimer.
  split; [ exact Ht | ].
  split; [ reflexivity | ].
  split; [ reflexivity | ].
  split; [ intros families; split; reflexivity | ].
  split; [ exact Hflag | ].
  split; [ rewrite Htimer, Ht; destruct (scrolling s); reflexivity | ].
  split; [ exact Htimer | ].
  split.
  - intros ev. destruct (handle_total ev s Hs) as (s' & E).
    exists s'. split; [ exact E | apply (handle_mode ev s s' E) ].
  - intros slot dialog. apply call_mode.
Qed.

Lemma timer_active_iff_scrolling_witness :
  reachable short_text_scrolling
  /\ tm_active (scroll_timer short_text_scrolling) = scrolling short_text_scrolling
  /\ scroll_timer (toggle_scrolling short_text_scrolling) =
     (if scrolling short_text_scrolling
      then timer_stop (scroll_timer short_text_scrolling)
      else mkTimer true 50).
Proof.
  split; [ exact reachable_short_text_scrolling | ].
  split; apply (timer_active_iff_scrolling short_text_scrolling
                  reachable_short_text_scrolling).
Defined.

(** ** The style invariant holds in every reachable state *)

Ltac finish_sty :=
  constructor; reduce_state; unfold QWIDGETSIZE_MAX in *; auto;
  try congruence; try (unfold qBound; lia);
  try reflexivity.

Lemma StyleInv_startup families : StyleInv (startup families).
Proof.
  constructor; cbn; unfold QWIDGETSIZE_MAX;
    try lia; try (vm_compute; reflexivity);
    try (vm_compute; split; discriminate).
Qed.

Lemma StyleInv_toggle_lock s : StyleInv s -> StyleInv (toggle_lock s).
Proof.
  start_inv s. unfold toggle_lock in *. reduce_state.
  match goal with |- context [negb ?b] => is_var b; destruct b end;
    reduce_state; finish_sty.
Qed.

Lemma StyleInv_toggle_scrolling s : StyleInv s -> StyleInv (toggle_scrolling s).
Proof.
  start_inv s. unfold toggle_scrolling in *. reduce_state.
  match goal with |- context [negb ?b] => is_var b; destruct b end;
    reduce_state; finish_sty.
Qed.

Lemma StyleInv_set_scroll_offset v s : StyleInv s -> StyleInv (set_scroll_offset v s).
Proof.
  start_inv s. unfold set_scroll_offset, scrollbar_setValue in *.
  reduce_state. finish_sty.
Qed.

Lemma StyleInv_document_laid_out m s : StyleInv s -> StyleInv (document_laid_out m s).
Proof.
  start_inv s. unfold document_laid_out, scrollbar_setRange in *.
  reduce_state. finish_sty.
Qed.

Lemma StyleInv_scroll_slider_setValue v s :
  StyleInv s -> StyleInv (scroll_slider_setValue v s).
Proof.
  start_inv s.
  unfold scroll_slider_setValue, slider_setValue, change_scroll_speed in *.
  reduce_state.
  match goal with |- context [?a =? ?b] => destruct (Z.eqb_spec a b) end;
    reduce_state; finish_sty.
Qed.

Lemma StyleInv_increase_scroll_speed s :
  StyleInv s -> StyleInv (increase_scroll_speed s).
Proof.
  intros H. unfold increase_scroll_speed.
  apply StyleInv_scroll_slider_setValue.
  revert H. start_inv s. finish_sty.
Qed.

Lemma StyleInv_decrease_scroll_speed s :
  StyleInv s -> StyleInv (decrease_scroll_speed s).
Proof.
  intros H. unfold decrease_scroll_speed.
  apply StyleInv_scroll_slider_setValue.
  revert H. start_inv s. finish_sty.
Qed.

Lemma StyleInv_font_combo_activated fam s :
  StyleInv s -> StyleInv (font_combo_activated fam s).
Proof.
  intros H. unfold font_combo_activated.
  destruct (_ && _); [ | exact H ].
  generalize (setCurrentIndex (findText fam (co_list (font_combo s)))
                (co_list (font_combo s))).
  intros entries.
  revert H. start_inv s. unfold change_font_family in *. reduce_state.
  finish_sty.
Qed.

Lemma StyleInv_change_font_color dialog s :
  StyleInv s -> StyleInv (change_font_color dialog s).
Proof.
  intros H. unfold change_font_color.
  destruct (exec_ dialog); [ | exact H ].
  destruct (isValid (selectedColor dialog)) eqn:Hvalid; [ | exact H ].
  revert H. start_inv s. reduce_state. finish_sty.
Qed.

Lemma StyleInv_size_slider_setValue v s :
  StyleInv s -> StyleInv (size_slider_setValue v s).
Proof.
  start_inv s.
  unfold size_slider_setValue, slider_setValue, change_font_size in *.
  reduce_state.
  match goal with |- context [?a =? ?b] => destruct (Z.eqb_spec a b) end;
    reduce_state; finish_sty.
Qed.

Lemma StyleInv_trans_slider_setValue v s :
  StyleInv s -> StyleInv (trans_slider_setValue v s).
Proof.
  start_inv s.
  unfold trans_slider_setValue, slider_setValue, change_transparency in *.
  reduce_state.
  match goal with |- context [?a =? ?b] => destruct (Z.eqb_spec a b) end;
    reduce_state; finish_sty.
Qed.

Lemma StyleInv_toggle_controls s : StyleInv s -> StyleInv (toggle_controls s).
Proof.
  start_inv s. unfold toggle_controls in *. reduce_state. finish_sty.
Qed.

Lemma StyleInv_emergency_unlock s : StyleInv s -> StyleInv (emergency_unlock s).
Proof.
  intros H. unfold emergency_unlock.
  destruct (locked s); [ apply StyleInv_toggle_lock | ]; exact H.
Qed.

Lemma StyleInv_mousePressEvent event s :
  StyleInv s -> StyleInv (mousePressEvent event s).
Proof.
  intros H. unfold mousePressEvent.
  destruct (resize_enabled s && in_corner event s).
  { revert H. start_inv s. finish_sty. }
  destruct (locked s && lock_button_underMouse event).
  { apply StyleInv_toggle_lock, H. }
  destruct (negb (locked s) && (button event =? Qt.LeftButton)); [ | exact H ].
  revert H. start_inv s. finish_sty.
Qed.

Lemma StyleInv_hover_cursor event s : StyleInv s -> StyleInv (hover_cursor event s).
Proof.
  intros H. unfold hover_cursor.
  destruct (resize_enabled s); [ | exact H ].
  destruct (in_corner event s); revert H; start_inv s; finish_sty.
Qed.

Lemma StyleInv_mouseMoveEvent event s s' :
  Inv s -> StyleInv s -> mouseMoveEvent event s = Some s' -> StyleInv s'.
Proof.
  intros Hi H. unfold mouseMoveEvent.
  pose proof (inv_minimumSize s Hi) as Hmin.
  destruct (resize_enabled s && is_resizing s && (buttons event =? Qt.LeftButton)).
  - destruct (resize_start_pos s) as [start_pos | ]; [ | discriminate ].
    destruct (resize_start_size s) as [start_size | ]; [ | discriminate ].
    intros E. injection E as <-. unfold resize. rewrite Hmin. clear Hi Hmin.
    revert H. start_inv s. finish_sty.
  - destruct (negb (locked s) && dragging s && (buttons event =? Qt.LeftButton)).
    + destruct (drag_position s) as [offset | ]; [ | discriminate ].
      intros E. injection E as <-. apply StyleInv_hover_cursor.
      clear Hi Hmin. revert H. start_inv s. finish_sty.
    + intros E. injection E as <-. apply StyleInv_hover_cursor, H.
Qed.

Lemma StyleInv_mouseReleaseEvent event s :
  StyleInv s -> StyleInv (mouseReleaseEvent event s).
Proof.
  intros H. unfold mouseReleaseEvent.
  destruct (button event =? Qt.LeftButton); [ | exact H ].
  revert H. start_inv s.
  match goal with |- context [match ?r with Some _ => _ | None => _ end] =>
    destruct r end; reduce_state; finish_sty.
Qed.

Lemma StyleInv_call slot dialog s : StyleInv s -> StyleInv (call slot dialog s).
Proof.
  intros H. destruct slot; cbn [call];
    auto using StyleInv_toggle_lock, StyleInv_toggle_scrolling,
      StyleInv_set_scroll_offset, StyleInv_change_font_color,
      StyleInv_toggle_controls, StyleInv_increase_scroll_speed,
      StyleInv_decrease_scroll_speed, StyleInv_emergency_unlock.
  - apply StyleInv_set_scroll_offset, H.
  - apply StyleInv_set_scroll_offset, H.
Qed.

Lemma StyleInv_eventFilter dialog event s :
  StyleInv s -> StyleInv (fst (eventFilter dialog event s)).
Proof.
  intros H. unfold eventFilter, scroll_up, scroll_down.
  repeat match goal with
    | |- context [if ?c then _ else _] => destruct c; cbn [fst]
    end;
    auto using StyleInv_toggle_lock, StyleInv_toggle_scrolling,
      StyleInv_set_scroll_offset, StyleInv_change_font_color,
      StyleInv_toggle_controls, StyleInv_increase_scroll_speed,
      StyleInv_decrease_scroll_speed.
Qed.

Lemma StyleInv_handle ev s s' :
  Inv s -> StyleInv s -> handle ev s = Some s' -> StyleInv s'.
Proof.
  intros Hi H Hstep. destruct ev; cbn [handle] in Hstep;
    try (injection Hstep as <-).
  - destruct (pb_enabled (lock_button s)); auto using StyleInv_toggle_lock.
  - destruct (pb_enabled (scroll_button s)); auto using StyleInv_toggle_scrolling.
  - destruct (cb_enabled (color_button s)); auto using StyleInv_change_font_color.
  - destruct (co_enabled (font_combo s)); [ | exact H ].
    apply StyleInv_font_combo_activated, H.
  - destruct (sl_enabled (size_slider s)); auto using StyleInv_size_slider_setValue.
  - destruct (sl_enabled (trans_slider s)); auto using StyleInv_trans_slider_setValue.
  - destruct (sl_enabled (scroll_slider s)); auto using StyleInv_scroll_slider_setValue.
  - unfold shortcut_activated.
    destruct (connected seq shortcuts); auto using StyleInv_call.
  - apply StyleInv_eventFilter, H.
  - destruct (tm_active (scroll_timer s)); [ | exact H ].
    apply StyleInv_set_scroll_offset, H.
  - apply StyleInv_mousePressEvent, H.
  - exact (StyleInv_mouseMoveEvent event s s' Hi H Hstep).
  - apply StyleInv_mouseReleaseEvent, H.
  - apply StyleInv_document_laid_out, H.
  - apply StyleInv_set_scroll_offset, H.
Qed.

Lemma reachable_StyleInv s : reachable s -> StyleInv s.
Proof.
  induction 1 as [ | s ev s' Hs IH Hstep ].
  - apply StyleInv_startup.
  - exact (StyleInv_handle ev s s' (reachable_Inv s Hs) IH Hstep).
Qed.

(** ** Presentation style *)

Lemma percent_listed (v : Z) :
  10 <= v <= 100 -> In v (map Z.of_nat (seq 10 91)).
Proof.
  intros Hv. apply in_map_iff. exists (Z.to_nat v).
  split; [ lia | apply in_seq; lia ].
Qed.

(** The byte the toolkit keeps for a slider position: the double
    computation [uint(value / 100.0 * 255)] agrees with the integer quotient
    [255 * value / 100] at every position of the slider. *)
Lemma opacity_byte_of_percent (v : Z) :
  10 <= v <= 100 ->
  opacity_byte (PrimFloat.div (float_of_Z v) 100) = 255 * v / 100.
Proof.
  intros Hv.
  assert (Hall : forallb
            (fun x => opacity_byte (PrimFloat.div (float_of_Z x) 100)
                      =? 255 * x / 100)
            (map Z.of_nat (seq 10 91)) = true)
    by (vm_compute; reflexivity).
  rewrite forallb_forall in Hall.
  apply Z.eqb_eq. apply Hall. apply percent_listed. exact Hv.
Qed.

Lemma slider_setValue_value v sl :
  sl_value (fst (slider_setValue v sl)) = qBound (sl_minimum sl) v (sl_maximum sl)
  /\ sl_minimum (fst (slider_setValue v sl)) = sl_minimum sl
  /\ sl_maximum (fst (slider_setValue v sl)) = sl_maximum sl.
Proof.
  unfold slider_setValue.
  destruct (Z.eqb_spec (qBound (sl_minimum sl) v (sl_maximum sl)) (sl_value sl));
    cbn; auto.
Qed.

(** X1. In every reachable state the transparency attribute is the double
    [value / 100.0] for the transparency slider's value, which is within
    10..100, and the window opacity is what the toolkit keeps of it: the byte
    [255 * value / 100] (rounded down, so between 25 and 255) over 255.
    Moving the slider to any requested position gives the same for that
    position bounded to 10..100. *)
Theorem opacity_within_range (s : State) (v : Z) :
  reachable s ->
  10 <= sl_value (trans_slider s) <= 100
  /\ transparency s = PrimFloat.div (float_of_Z (sl_value (trans_slider s))) 100
  /\ windowOpacity s =
     PrimFloat.div (float_of_Z (255 * sl_value (trans_slider s) / 100)) 255
  /\ 25 <= 255 * sl_value (trans_slider s) / 100 <= 255
  /\ sl_value (trans_slider (trans_slider_setValue v s)) = qBound 10 v 100
  /\ transparency (trans_slider_setValue v s) =
     PrimFloat.div (float_of_Z (qBound 10 v 100)) 100
  /\ windowOpacity (trans_slider_setValue v s) =
     PrimFloat.div (float_of_Z (255 * qBound 10 v 100 / 100)) 255.
Proof.
  intros Hs. pose proof (reachable_StyleInv s Hs) as H.
  assert (Hgen : forall st, StyleInv st ->
            10 <= sl_value (trans_slider st) <= 100
            /\ transparency st =
               PrimFloat.div (float_of_Z (sl_value (trans_slider st))) 100
            /\ windowOpacity st =
               PrimFloat.div (float_of_Z (255 * sl_value (trans_slider st) / 100)) 255
            /\ 25 <= 255 * sl_value (trans_slider st) / 100 <= 255).
  { intros st Hst. pose proof (sty_trans_value st Hst) as Hv.
    split; [ exact Hv | ]. split; [ exact (sty_transparency st Hst) | ].
    split.
    - rewrite (sty_opacity st Hst), (sty_transparency st Hst).
      unfold stored_opacity. rewrite opacity_byte_of_percent by exact Hv.
      reflexivity.
    - split.
      + apply Z.div_le_lower_bound; lia.
      + apply Z.div_le_upper_bound; lia. }
  destruct (Hgen s H) as (Hv & Ht & Ho & Hb).
  split; [ exact Hv | ]. split; [ exact Ht | ]. split; [ exact Ho | ].
  split; [ exact Hb | ].
  assert (Hval : sl_value (trans_slider (trans_slider_setValue v s)) = qBound 10 v 100).
  { destruct (slider_setValue_value v (trans_slider s)) as (Hsv & _ & _).
    rewrite (sty_trans_minimum s H), (sty_trans_maximum s H) in Hsv.
    unfold trans_slider_setValue.
    destruct (slider_setValue v (trans_slider s)) as [sl [value | ]];
      cbn in Hsv |- *; exact Hsv. }
  destruct (Hgen _ (StyleInv_trans_slider_setValue v s H)) as (_ & Ht' & Ho' & _).
  rewrite Hval in Ht', Ho'.
  split; [ exact Hval | ]. split; [ exact Ht' | exact Ho' ].
Qed.

Lemma opacity_within_range_witness :
  reachable init
  /\ 10 <= sl_value (trans_slider init) <= 100
  /\ windowOpacity (trans_slider_setValue 5 init) =
     PrimFloat.div (float_of_Z (255 * qBound 10 5 100 / 100)) 255.
Proof.
  split; [ exact reachable_init | ].
  split; apply (opacity_within_range init 5 reachable_init).
Defined.

(** X2. In every reachable state the font size is within 8..72, equals the
    size slider's value, and is the point size of the text surface's font;
    moving the slider to any requested position makes that position, bounded
    to 8..72, the new size of attribute and font alike, and leaves the font
    family alone. *)
Theorem font_size_within_range (s : State) (v : Z) :
  reachable s ->
  8 <= font_size s <= 72
  /\ sl_value (size_slider s) = font_size s
  /\ pointSize (te_font (text_edit s)) = font_size s
  /\ font_size (size_slider_setValue v s) = qBound 8 v 72
  /\ pointSize (te_font (text_edit (size_slider_setValue v s))) = qBound 8 v 72
  /\ family (te_font (text_edit (size_slider_setValue v s))) =
     family (te_font (text_edit s)).
Proof.
  intros Hs. pose proof (reachable_StyleInv s Hs) as H.
  split; [ exact (sty_font_size s H) | ].
  split; [ exact (sty_size_value s H) | ].
  split; [ exact (sty_pointSize s H) | ].
  clear Hs. revert H. start_inv s.
  unfold size_slider_setValue, slider_setValue, change_font_size.
  reduce_state.
  match goal with |- context [?a =? ?b] => destruct (Z.eqb_spec a b) end;
    reduce_state; auto.
Qed.

Lemma font_size_within_range_witness :
  reachable init
  /\ 8 <= font_size init <= 72
  /\ font_size (size_slider_setValue 100 init) = qBound 8 100 72.
Proof.
  split; [ exact reachable_init | ].
  split; apply (font_size_within_range init 100 reachable_init).
Defined.

(** X4. In every reachable state the font colour attribute is a valid
    colour and is both the fill of the swatch button and the foreground of
    the text surface; the colour dialog changes the attribute only when it is
    accepted with a valid colour, and then to the selected one. *)
Theorem font_color_applied (s : State) (dialog : QColorDialog) :
  reachable s ->
  isValid (font_color s) = true
  /\ cb_fill (color_button s) = font_color s
  /\ te_color (text_edit s) = font_color s
  /\ font_color (change_font_color dialog s) =
     (if exec_ dialog && isValid (selectedColor dialog)
      then selectedColor dialog else font_color s)
  /\ (if exec_ dialog && isValid (selectedColor dialog)
      then True else change_font_color dialog s = s).
Proof.
  intros Hs. pose proof (reachable_StyleInv s Hs) as H.
  split; [ exact (sty_color_valid s H) | ].
  split; [ exact (sty_swatch s H) | ].
  split; [ exact (sty_text_color s H) | ].
  unfold change_font_color.
  destruct (exec_ dialog); cbn [andb]; [ | split; reflexivity ].
  destruct (isValid (selectedColor dialog)); split; try reflexivity; exact I.
Qed.

Lemma font_color_applied_witness :
  reachable init
  /\ isValid (font_color init) = true
  /\ cb_fill (color_button init) = font_color init.
Proof.
  split; [ exact reachable_init | ].
  split; apply (font_color_applied init dialog_cancelled reachable_init).
Defined.

(** X5. In every reachable state the window is at least as large as its
    minimum size, 300 wide and 200 high, which is never changed. *)
Theorem window_never_below_minimum (s : State) :
  reachable s ->
  minimumSize s = mkSize 300 200
  /\ width (minimumSize s) <= width (win_size s)
  /\ height (minimumSize s) <= height (win_size s).
Proof.
  intros Hs. pose proof (reachable_StyleInv s Hs) as H.
  pose proof (inv_minimumSize s (reachable_Inv s Hs)) as Hm.
  rewrite Hm. cbn [width height].
  split; [ reflexivity | ].
  split; [ apply (sty_width s H) | apply (sty_height s H) ].
Qed.

Lemma window_never_below_minimum_witness :
  reachable locked_resize_started
  /\ width (minimumSize locked_resize_started)
     <= width (win_size locked_resize_started).
Proof.
  split; [ exact reachable_locked_resize_started | ].
  apply (window_never_below_minimum locked_resize_started
           reachable_locked_resize_started).
Defined.

(** ** Gestures *)

Lemma hover_cursor_fields event s :
  win_pos (hover_cursor event s) = win_pos s
  /\ win_size (hover_cursor event s) = win_size s
  /\ dragging (hover_cursor event s) = dragging s.
Proof.
  unfold hover_cursor.
  destruct (resize_enabled s); [ destruct (in_corner event s) | ];
    repeat split.
Qed.

(** X6. In an unlocked window a left-button press outside the hotspot
    followed by a move with the left button held moves the window origin by
    exactly the pointer's displacement on screen, and leaves the size as it
    was. *)
Theorem drag_follows_pointer (s : State) (press move : QMouseEvent) :
  locked s = false ->
  in_corner press s = false ->
  button press = Qt.LeftButton ->
  buttons move = Qt.LeftButton ->
  exists s',
    mouseMoveEvent move (mousePressEvent press s) = Some s'
    /\ px (win_pos s') =
       px (win_pos s) + (px (globalPos move) - px (globalPos press))
    /\ py (win_pos s') =
       py (win_pos s) + (py (globalPos move) - py (globalPos press))
    /\ win_size s' = win_size s
    /\ dragging s' = true.
Proof.
  intros Hl Hc Hb Hm.
  unfold mousePressEvent. rewrite Hc, andb_false_r, Hl, Hb. cbn [andb negb].
  rewrite Z.eqb_refl.
  match goal with |- context [mouseMoveEvent move ?st] => set (s1 := st) end.
  assert (Hr1 : is_resizing s1 = false) by reflexivity.
  assert (Hl1 : locked s1 = locked s) by reflexivity.
  assert (Hd1 : dragging s1 = true) by reflexivity.
  assert (Ho1 : drag_position s1 = Some (point_sub (globalPos press) (win_pos s)))
    by reflexivity.
  assert (Hz1 : win_size s1 = win_size s) by reflexivity.
  unfold mouseMoveEvent.
  rewrite Hr1, andb_false_r, Hl1, Hl, Hd1, Hm, Ho1. cbn [andb negb].
  rewrite Z.eqb_refl.
  eexists. split; [ reflexivity | ].
  destruct (hover_cursor_fields move
              (s1{{ win_pos := point_sub (globalPos move)
                                 (point_sub (globalPos press) (win_pos s)) }}))
    as (Fp & Fz & Fd).
  rewrite Fp, Fz, Fd. cbn. repeat split; lia.
Qed.

Lemma drag_follows_pointer_witness :
  locked init = false
  /\ in_corner left_press init = false
  /\ button left_press = Qt.LeftButton
  /\ buttons move_left_held = Qt.LeftButton
  /\ exists s',
       mouseMoveEvent move_left_held (mousePressEvent left_press init) = Some s'
       /\ px (win_pos s') =
          px (win_pos init)
          + (px (globalPos move_left_held) - px (globalPos left_press))
       /\ py (win_pos s') =
          py (win_pos init)
          + (py (globalPos move_left_held) - py (globalPos left_press))
       /\ win_size s' = win_size init
       /\ dragging s' = true.
Proof.
  repeat (split; [ reflexivity | ]).
  exact (drag_follows_pointer init left_press move_left_held
           eq_refl eq_refl eq_refl eq_refl).
Defined.

Lemma left_release_flags_cleared s release :
  button release = Qt.LeftButton ->
  dragging (mouseReleaseEvent release s) = false
  /\ is_resizing (mouseReleaseEvent release s) = false
  /\ win_pos (mouseReleaseEvent release s) = win_pos s
  /\ win_size (mouseReleaseEvent release s) = win_size s.
Proof.
  intros Hb. unfold mouseReleaseEvent, is_resizing. rewrite Hb, Z.eqb_refl.
  open_state s. reduce_state.
  match goal with |- context [match ?r with Some _ => _ | None => _ end] =>
    destruct r end; repeat split.
Qed.

(** X7. After the left button is released, in whatever state the release
    found the window, a pointer move succeeds and neither moves nor resizes
    the window. *)
Theorem no_gesture_after_left_release (s : State) (release move : QMouseEvent) :
  button release = Qt.LeftButton ->
  exists s',
    mouseMoveEvent move (mouseReleaseEvent release s) = Some s'
    /\ win_pos s' = win_pos s
    /\ win_size s' = win_size s.
Proof.
  intros Hb.
  pose proof (left_release_flags_cleared s release Hb) as (Hd & Hr & Hp & Hz).
  unfold mouseMoveEvent. rewrite Hr, Hd, andb_false_r. cbn [andb].
  rewrite andb_false_r. cbn [andb].
  eexists. split; [ reflexivity | ].
  destruct (hover_cursor_fields move (mouseReleaseEvent release s))
    as (Fp & Fz & _).
  rewrite Fp, Fz. auto.
Qed.

Lemma no_gesture_after_left_release_witness :
  button left_release = Qt.LeftButton
  /\ exists s',
       mouseMoveEvent move_left_held (mouseReleaseEvent left_release drag_started)
       = Some s'
       /\ win_pos s' = win_pos drag_started
       /\ win_size s' = win_size drag_started.
Proof.
  split; [ reflexivity | ].
  exact (no_gesture_after_left_release drag_started left_release move_left_held
           eq_refl).
Defined.

(** X8. In every reachable state a pointer move that is not part of a
    resize (the resizing flag clear, or the left button not the one held)
    succeeds and leaves the cursor as the diagonal-resize shape exactly when
    the pointer is over the hotspot, and as the arrow otherwise. *)
Theorem hover_cursor_tracks_hotspot (s : State) (move : QMouseEvent) :
  reachable s ->
  is_resizing s && (buttons move =? Qt.LeftButton) = false ->
  exists s',
    mouseMoveEvent move s = Some s'
    /\ cursor s' =
       (if in_corner move s then Qt.SizeFDiagCursor else Qt.ArrowCursor)
    /\ win_size s' = win_size s.
Proof.
  intros Hs Hno. pose proof (reachable_Inv s Hs) as H.
  pose proof (inv_resize_enabled s H) as He.
  destruct (Inv_mouseMoveEvent move s H) as (s' & E & _).
  exists s'. split; [ exact E | ].
  unfold mouseMoveEvent in E.
  rewrite <- andb_assoc, Hno, andb_false_r in E.
  assert (Hover : forall st,
            resize_enabled st = true -> win_size st = win_size s ->
            cursor (hover_cursor move st) =
              (if in_corner move s then Qt.SizeFDiagCursor else Qt.ArrowCursor)
            /\ win_size (hover_cursor move st) = win_size s).
  { intros st Est Hst. unfold hover_cursor. rewrite Est.
    replace (in_corner move st) with (in_corner move s)
      by (unfold in_corner; rewrite Hst; reflexivity).
    destruct (in_corner move s); split; auto. }
  destruct (negb (locked s) && dragging s && (buttons move =? Qt.LeftButton)).
  - destruct (drag_position s); [ | discriminate ].
    injection E as <-. apply Hover; [ exact He | reflexivity ].
  - injection E as <-. apply Hover; [ exact He | reflexivity ].
Qed.

Lemma hover_cursor_tracks_hotspot_witness :
  reachable init
  /\ is_resizing init && (buttons move_left_held =? Qt.LeftButton) = false
  /\ exists s',
       mouseMoveEvent move_left_held init = Some s'
       /\ cursor s' =
          (if in_corner move_left_held init
           then Qt.SizeFDiagCursor else Qt.ArrowCursor)
       /\ win_size s' = win_size init.
Proof.
  split; [ exact reachable_init | ].
  split; [ reflexivity | ].
  exact (hover_cursor_tracks_hotspot init move_left_held reachable_init eq_refl).
Defined.

(** X9. In every reachable state, locked or not, a press in the hotspot
    followed by a move with the left button held resizes the window to its
    size at the press plus the pointer's displacement on screen, each
    dimension floored at 300 and 200 and capped at the toolkit's maximum
    16777215; the window origin stays where it was, and a move back to the
    pressed position restores the size the window had at the press. *)
Theorem resize_follows_pointer (s : State) (press move : QMouseEvent) :
  reachable s ->
  in_corner press s = true ->
  buttons move = Qt.LeftButton ->
  exists s',
    mouseMoveEvent move (mousePressEvent press s) = Some s'
    /\ width (win_size s') =
       Z.min QWIDGETSIZE_MAX
         (Z.max 300 (width (win_size s)
                     + (px (globalPos move) - px (globalPos press))))
    /\ height (win_size s') =
       Z.min QWIDGETSIZE_MAX
         (Z.max 200 (height (win_size s)
                     + (py (globalPos move) - py (globalPos press))))
    /\ win_pos s' = win_pos s
    /\ locked s' = locked s
    /\ (if (px (globalPos move) =? px (globalPos press))
           && (py (globalPos move) =? py (globalPos press))
        then win_size s' = win_size s else True).
Proof.
  intros Hs Hc Hm. pose proof (reachable_Inv s Hs) as H.
  pose proof (reachable_StyleInv s Hs) as Hsty.
  pose proof (inv_resize_enabled s H) as He.
  pose proof (inv_minimumSize s H) as Hmin.
  pose proof (sty_width s Hsty) as Hw.
  pose proof (sty_height s Hsty) as Hh.
  unfold mousePressEvent. rewrite He, Hc. cbn [andb].
  match goal with |- context [mouseMoveEvent move ?st] => set (s1 := st) end.
  assert (E1 : resize_enabled s1 = resize_enabled s) by reflexivity.
  assert (E2 : is_resizing s1 = true) by reflexivity.
  assert (E3 : resize_start_pos s1 = Some (globalPos press)) by reflexivity.
  assert (E4 : resize_start_size s1 = Some (win_size s)) by reflexivity.
  assert (E5 : minimumSize s1 = minimumSize s) by reflexivity.
  unfold mouseMoveEvent.
  rewrite E1, He, E2, Hm, E3, E4. cbn [andb].
  rewrite Z.eqb_refl.
  eexists. split; [ reflexivity | ].
  unfold resize. rewrite E5, Hmin.
  cbn [width height point_sub px py]. unfold QWIDGETSIZE_MAX in *.
  split; [ cbn; lia | ]. split; [ cbn; lia | ].
  split; [ reflexivity | ]. split; [ reflexivity | ].
  destruct (Z.eqb_spec (px (globalPos move)) (px (globalPos press))) as [Ex | ];
    [ | exact I ].
  destruct (Z.eqb_spec (py (globalPos move)) (py (globalPos press))) as [Ey | ];
    [ | exact I ].
  cbn [andb]. rewrite Ex, Ey. clear - Hw Hh.
  cbv [RecordSetters.constant]. cbn.
  destruct (win_size s) as [w h]. cbn in *. f_equal; lia.
Qed.

Lemma resize_follows_pointer_witness :
  reachable locked_window
  /\ in_corner corner_press locked_window = true
  /\ buttons move_to_origin = Qt.LeftButton
  /\ exists s',
       mouseMoveEvent move_to_origin (mousePressEvent corner_press locked_window)
       = Some s'
       /\ width (win_size s') =
          Z.min QWIDGETSIZE_MAX
            (Z.max 300 (width (win_size locked_window)
                        + (px (globalPos move_to_origin)
                           - px (globalPos corner_press))))
       /\ height (win_size s') =
          Z.min QWIDGETSIZE_MAX
            (Z.max 200 (height (win_size locked_window)
                        + (py (globalPos move_to_origin)
                           - py (globalPos corner_press))))
       /\ win_pos s' = win_pos locked_window
       /\ locked s' = locked locked_window
       /\ (if (px (globalPos move_to_origin) =? px (globalPos corner_press))
              && (py (globalPos move_to_origin) =? py (globalPos corner_press))
           then win_size s' = win_size locked_window else True).
Proof.
  split; [ exact reachable_locked_window | ].
  split; [ reflexivity | ].
  split; [ reflexivity | ].
  exact (resize_follows_pointer locked_window corner_press move_to_origin
           reachable_locked_window eq_refl eq_refl).
Defined.

(** ** Scrolling, continued *)

Lemma ticks_closed_form (n : nat) : forall s,
  Inv s -> tm_active (scroll_timer s) = true ->
  scroll_offset (ticks n s) =
  Z.min (sb_maximum (verticalScrollBar (text_edit s)))
        (scroll_offset s + Z.of_nat n * scroll_speed s).
Proof.
  induction n as [ | n IH ]; intros s H Hact.
  - pose proof (inv_scroll_range s H). cbn. lia.
  - cbn [ticks]. rewrite Hact.
    pose proof (inv_scroll_speed s H) as Hsp.
    pose proof (inv_scroll_range s H) as Hrg.
    assert (Hnn : 0 <= Z.of_nat n * scroll_speed s)
      by (apply Z.mul_nonneg_nonneg; lia).
    assert (Hone : scroll_offset (auto_scroll s) =
                   Z.min (sb_maximum (verticalScrollBar (text_edit s)))
                         (scroll_offset s + scroll_speed s)).
    { unfold auto_scroll. rewrite set_scroll_offset_value. unfold qBound. lia. }
    destruct (set_scroll_offset_frame (scroll_offset s + scroll_speed s) s)
      as (Fsp & _ & _ & Ftm & _ & Fmax).
    fold (auto_scroll s) in Fsp, Ftm, Fmax.
    rewrite IH; [ | apply Inv_auto_scroll, H | rewrite Ftm; exact Hact ].
    rewrite Hone, Fsp, Fmax, Nat2Z.inj_succ, Z.mul_succ_l. lia.
Qed.

(** X10. While auto-scroll is active in a reachable state, after [n] timer
    ticks the offset is [offset + n * speed] or the scroll bar's maximum,
    whichever is smaller: the text scrolls at the set speed until it reaches
    its end and then stays there, and no tick ever moves it backwards. *)
Theorem auto_scroll_runs_to_the_end (s : State) (n : nat) :
  reachable s ->
  scrolling s = true ->
  scroll_offset (ticks n s) =
    Z.min (sb_maximum (verticalScrollBar (text_edit s)))
          (scroll_offset s + Z.of_nat n * scroll_speed s)
  /\ scroll_offset s <= scroll_offset (ticks n s)
  /\ scroll_offset (ticks n s) <= scroll_offset (ticks (S n) s)
  /\ scroll_offset (ticks (S n) s)
     <= sb_maximum (verticalScrollBar (text_edit s)).
Proof.
  intros Hs Hscr. pose proof (reachable_Inv s Hs) as H.
  assert (Hact : tm_active (scroll_timer s) = true)
    by (rewrite (inv_timer_active s H); exact Hscr).
  pose proof (inv_scroll_speed s H) as Hsp.
  pose proof (inv_scroll_range s H) as Hrg.
  rewrite (ticks_closed_form (S n) s H Hact), (ticks_closed_form n s H Hact).
  assert (Hnn : 0 <= Z.of_nat n * scroll_speed s)
    by (apply Z.mul_nonneg_nonneg; lia).
  rewrite Nat2Z.inj_succ, Z.mul_succ_l. repeat split; lia.
Qed.

Lemma auto_scroll_runs_to_the_end_witness :
  reachable short_text_scrolling
  /\ scrolling short_text_scrolling = true
  /\ scroll_offset (ticks 7 short_text_scrolling) =
     Z.min (sb_maximum (verticalScrollBar (text_edit short_text_scrolling)))
           (scroll_offset short_text_scrolling
            + Z.of_nat 7 * scroll_speed short_text_scrolling).
Proof.
  split; [ exact reachable_short_text_scrolling | ].
  split; [ reflexivity | ].
  apply (auto_scroll_runs_to_the_end short_text_scrolling 7
           reachable_short_text_scrolling eq_refl).
Defined.

Lemma set_scroll_offset_twice v w s :
  set_scroll_offset w (set_scroll_offset v s) = set_scroll_offset w s.
Proof. open_state s. reflexivity. Qed.

Lemma set_scroll_offset_same s :
  Inv s -> set_scroll_offset (scroll_offset s) s = s.
Proof.
  start_inv s. unfold set_scroll_offset, scrollbar_setValue, scroll_offset in *.
  reduce_state. rewrite qBound_inside by assumption. reflexivity.
Qed.

(** X11. In every reachable state a nudge up followed by a nudge down
    restores the whole state when the offset is at least 10 above the scroll
    bar's minimum; closer to the top the pair ends 10 above the minimum (or at
    the maximum if that is nearer) instead.  Symmetrically, down followed by
    up restores the state when the offset is at least 10 below the maximum. *)
Theorem nudge_round_trip (s : State) :
  reachable s ->
  (if sb_minimum (verticalScrollBar (text_edit s)) <=? scroll_offset s - 10
   then scroll_down (scroll_up s) = s
   else scroll_offset (scroll_down (scroll_up s)) =
        Z.min (sb_maximum (verticalScrollBar (text_edit s)))
              (sb_minimum (verticalScrollBar (text_edit s)) + 10))
  /\ (if scroll_offset s + 10 <=? sb_maximum (verticalScrollBar (text_edit s))
      then scroll_up (scroll_down s) = s
      else scroll_offset (scroll_up (scroll_down s)) =
           Z.max (sb_minimum (verticalScrollBar (text_edit s)))
                 (sb_maximum (verticalScrollBar (text_edit s)) - 10)).
Proof.
  intros Hs. pose proof (reachable_Inv s Hs) as H.
  pose proof (inv_scroll_range s H) as Hrg.
  assert (Hup : scroll_offset (scroll_up s) =
                Z.max (sb_minimum (verticalScrollBar (text_edit s)))
                      (scroll_offset s - 10)).
  { unfold scroll_up. rewrite set_scroll_offset_value. unfold qBound. lia. }
  assert (Hdown : scroll_offset (scroll_down s) =
                  Z.min (sb_maximum (verticalScrollBar (text_edit s)))
                        (scroll_offset s + 10)).
  { unfold scroll_down. rewrite set_scroll_offset_value. unfold qBound. lia. }
  split.
  - unfold scroll_down at 1 2. rewrite Hup. unfold scroll_up.
    rewrite set_scroll_offset_twice.
    destruct (Z.leb_spec (sb_minimum (verticalScrollBar (text_edit s)))
                         (scroll_offset s - 10)).
    + rewrite Z.max_r by lia.
      replace (scroll_offset s - 10 + 10) with (scroll_offset s) by lia.
      apply set_scroll_offset_same, H.
    + rewrite set_scroll_offset_value. unfold qBound. lia.
  - unfold scroll_up at 1 2. rewrite Hdown. unfold scroll_down.
    rewrite set_scroll_offset_twice.
    destruct (Z.leb_spec (scroll_offset s + 10)
                         (sb_maximum (verticalScrollBar (text_edit s)))).
    + rewrite Z.min_r by lia.
      replace (scroll_offset s + 10 - 10) with (scroll_offset s) by lia.
      apply set_scroll_offset_same, H.
    + rewrite set_scroll_offset_value. unfold qBound. lia.
Qed.

Lemma reachable_mid_text : reachable mid_text.
Proof.
  apply (reachable_run [DocumentLaidOut 1000; ScrollBarMoved 500] init);
    [ exact reachable_init | reflexivity ].
Qed.

Lemma nudge_round_trip_witness :
  reachable mid_text
  /\ (if sb_minimum (verticalScrollBar (text_edit mid_text))
         <=? scroll_offset mid_text - 10
      then scroll_down (scroll_up mid_text) = mid_text
      else scroll_offset (scroll_down (scroll_up mid_text)) =
           Z.min (sb_maximum (verticalScrollBar (text_edit mid_text)))
                 (sb_minimum (verticalScrollBar (text_edit mid_text)) + 10)).
Proof.
  split; [ exact reachable_mid_text | ].
  apply (nudge_round_trip mid_text reachable_mid_text).
Defined.

(** ** Scroll speed, continued *)

Ltac split_speed_cases :=
  unfold increase_scroll_speed, decrease_scroll_speed, scroll_slider_setValue,
    slider_setValue, change_scroll_speed, qBound in *;
  reduce_state;
  repeat match goal with
    | |- context [?a =? ?b] => destruct (Z.eqb_spec a b); reduce_state
    end.

Lemma decrease_after_increase s :
  Inv s -> scroll_speed s < 10 ->
  decrease_scroll_speed (increase_scroll_speed s) = s.
Proof.
  start_inv s. intros Hlt. split_speed_cases;
    try lia; repeat f_equal; lia.
Qed.

Lemma increase_after_decrease s :
  Inv s -> 1 < scroll_speed s ->
  increase_scroll_speed (decrease_scroll_speed s) = s.
Proof.
  start_inv s. intros Hlt. split_speed_cases;
    try lia; repeat f_equal; lia.
Qed.

(** X12. In every reachable state speeding up and then slowing down
    restores the whole state unless the speed was already 10, where the pair
    ends at 9; slowing down and then speeding up restores it unless the speed
    was already 1, where the pair ends at 2. *)
Theorem speed_round_trip (s : State) :
  reachable s ->
  (if scroll_speed s <? 10
   then decrease_scroll_speed (increase_scroll_speed s) = s
   else scroll_speed (decrease_scroll_speed (increase_scroll_speed s)) = 9)
  /\ (if 1 <? scroll_speed s
      then increase_scroll_speed (decrease_scroll_speed s) = s
      else scroll_speed (increase_scroll_speed (decrease_scroll_speed s)) = 2).
Proof.
  intros Hs. pose proof (reachable_Inv s Hs) as H.
  pose proof (inv_scroll_speed s H) as Hsp.
  pose proof (increase_scroll_speed_value s H) as Hinc.
  pose proof (decrease_scroll_speed_value s H) as Hdec.
  split.
  - destruct (Z.ltb_spec (scroll_speed s) 10).
    + apply decrease_after_increase; assumption.
    + rewrite (decrease_scroll_speed_value _ (Inv_increase_scroll_speed s H)).
      rewrite Hinc. lia.
  - destruct (Z.ltb_spec 1 (scroll_speed s)).
    + apply increase_after_decrease; assumption.
    + rewrite (increase_scroll_speed_value _ (Inv_decrease_scroll_speed s H)).
      rewrite Hdec. lia.
Qed.

Lemma speed_round_trip_witness :
  reachable init
  /\ (if scroll_speed init <? 10
      then decrease_scroll_speed (increase_scroll_speed init) = init
      else scroll_speed (decrease_scroll_speed (increase_scroll_speed init)) = 9).
Proof.
  split; [ exact reachable_init | ].
  apply (speed_round_trip init reachable_init).
Defined.

(** X13. In every reachable state the speed slider shows the scroll speed,
    also right after a speed-up or slow-down from the keyboard; and setting
    the slider to the same position twice has the effect of setting it
    once. *)
Theorem speed_slider_mirrors_speed (s : State) (v : Z) :
  reachable s ->
  sl_value (scroll_slider s) = scroll_speed s
  /\ sl_value (scroll_slider (increase_scroll_speed s)) =
     scroll_speed (increase_scroll_speed s)
  /\ sl_value (scroll_slider (decrease_scroll_speed s)) =
     scroll_speed (decrease_scroll_speed s)
  /\ sl_value (scroll_slider (scroll_slider_setValue v s)) =
     scroll_speed (scroll_slider_setValue v s)
  /\ scroll_slider_setValue v (scroll_slider_setValue v s) =
     scroll_slider_setValue v s.
Proof.
  intros Hs. pose proof (reachable_Inv s Hs) as H.
  assert (Hmirror : forall st, Inv st -> sl_value (scroll_slider st) = scroll_speed st).
  { intros st Hst. rewrite (inv_scroll_slider st Hst). reflexivity. }
  split; [ apply Hmirror, H | ].
  split; [ apply Hmirror, Inv_increase_scroll_speed, H | ].
  split; [ apply Hmirror, Inv_decrease_scroll_speed, H | ].
  split; [ apply Hmirror, Inv_scroll_slider_setValue, H | ].
  clear Hs Hmirror. revert H. start_inv s. split_speed_cases;
    try reflexivity; lia.
Qed.

Lemma speed_slider_mirrors_speed_witness :
  reachable init
  /\ sl_value (scroll_slider init) = scroll_speed init
  /\ scroll_slider_setValue 7 (scroll_slider_setValue 7 init) =
     scroll_slider_setValue 7 init.
Proof.
  split; [ exact reachable_init | ].
  split; apply (speed_slider_mirrors_speed init 7 reachable_init).
Defined.

(** ** Modes side by side *)

(** X14. Lock mode and scroll mode do not interfere: in any state the lock
    toggle commutes with the scroll toggle, with a timer tick and with both
    nudges, so locking neither stops nor alters scrolling. *)
Theorem lock_commutes_with_scrolling (s : State) :
  toggle_lock (toggle_scrolling s) = toggle_scrolling (toggle_lock s)
  /\ toggle_lock (auto_scroll s) = auto_scroll (toggle_lock s)
  /\ toggle_lock (scroll_up s) = scroll_up (toggle_lock s)
  /\ toggle_lock (scroll_down s) = scroll_down (toggle_lock s)
  /\ scroll_offset (auto_scroll (toggle_lock s)) = scroll_offset (auto_scroll s).
Proof.
  open_state s.
  unfold toggle_lock, toggle_scrolling, auto_scroll, scroll_up, scroll_down,
    set_scroll_offset, scroll_offset, scrollbar_setValue.
  reduce_state.
  repeat match goal with
    | |- context [negb ?b] => is_var b; destruct b; reduce_state
    end;
    repeat split.
Qed.

(** X15. In every reachable state the button labels tell the mode: the lock
    button reads "Unlock Position" exactly when the window is locked and
    "Lock Position" otherwise, the scroll button reads "Stop Scrolling"
    exactly when auto-scroll is active and "Start Scrolling" otherwise. *)
Theorem button_labels_tell_mode (s : State) :
  reachable s ->
  pb_text (lock_button s) =
    (if locked s then "Unlock Position" else "Lock Position")
  /\ pb_text (scroll_button s) =
    (if scrolling s then "Stop Scrolling" else "Start Scrolling").
Proof.
  intros Hs. pose proof (reachable_Inv s Hs) as H.
  rewrite (inv_lock_button s H), (inv_scroll_button s H). split; reflexivity.
Qed.

Lemma button_labels_tell_mode_witness :
  reachable short_text_scrolling
  /\ pb_text (scroll_button short_text_scrolling) =
     (if scrolling short_text_scrolling
      then "Stop Scrolling" else "Start Scrolling").
Proof.
  split; [ exact reachable_short_text_scrolling | ].
  apply (button_labels_tell_mode short_text_scrolling
           reachable_short_text_scrolling).
Defined.

Lemma toggle_scrolling_twice_scrolling s :
  Inv s -> scrolling s = true -> toggle_scrolling (toggle_scrolling s) = s.
Proof.
  start_inv s. intros Hscr. subst. unfold toggle_scrolling. reduce_state.
  match goal with H : true = true -> _ = 50 |- _ => rewrite (H eq_refl) end.
  reflexivity.
Qed.

Lemma toggle_scrolling_twice_idle s :
  Inv s -> scrolling s = false ->
  toggle_scrolling (toggle_scrolling s) = s{{ scroll_timer := mkTimer false 50 }}.
Proof.
  start_inv s. intros Hscr. subst. unfold toggle_scrolling. reduce_state.
  reflexivity.
Qed.

(** X16. In every reachable state two scroll toggles restore the scroll
    flag, the timer's activity and the button label.  They restore the whole
    state when auto-scroll was active; when it was not, the only trace is the
    stopped timer keeping the 50 ms period it was started with. *)
Theorem scroll_toggle_round_trip (s : State) :
  reachable s ->
  scrolling (toggle_scrolling (toggle_scrolling s)) = scrolling s
  /\ tm_active (scroll_timer (toggle_scrolling (toggle_scrolling s))) =
     tm_active (scroll_timer s)
  /\ scroll_button (toggle_scrolling (toggle_scrolling s)) = scroll_button s
  /\ (if scrolling s
      then toggle_scrolling (toggle_scrolling s) = s
      else scroll_timer (toggle_scrolling (toggle_scrolling s)) = mkTimer false 50).
Proof.
  intros Hs. pose proof (reachable_Inv s Hs) as H.
  pose proof (inv_timer_active s H) as Ht.
  pose proof (inv_scroll_button s H) as Hb.
  destruct (scrolling s) eqn:Hscr.
  - rewrite (toggle_scrolling_twice_scrolling s H Hscr), Hscr. repeat split.
  - rewrite (toggle_scrolling_twice_idle s H Hscr).
    split; [ exact Hscr | ].
    split; [ cbn; symmetry; exact Ht | ].
    split; reflexivity.
Qed.

Lemma scroll_toggle_round_trip_witness :
  reachable short_text_scrolling
  /\ (if scrolling short_text_scrolling
      then toggle_scrolling (toggle_scrolling short_text_scrolling)
           = short_text_scrolling
      else scroll_timer (toggle_scrolling (toggle_scrolling short_text_scrolling))
           = mkTimer false 50).
Proof.
  split; [ exact reachable_short_text_scrolling | ].
  apply (scroll_toggle_round_trip short_text_scrolling
           reachable_short_text_scrolling).
Defined.

(** X17. Toggling the control strip twice restores the whole state, one
    toggle flips its visibility and nothing else, and the toggle commutes
    with the lock toggle: the strip can be hidden and shown whether or not
    the window is locked, without touching any control's enabled flag. *)
Theorem control_strip_toggle_round_trip (s : State) :
  toggle_controls (toggle_controls s) = s
  /\ control_panel_visible (toggle_controls s) = negb (control_panel_visible s)
  /\ toggle_controls (toggle_lock s) = toggle_lock (toggle_controls s)
  /\ control_flags (toggle_controls s) = control_flags s
  /\ locked (toggle_controls s) = locked s.
Proof.
  open_state s. unfold toggle_controls, toggle_lock, control_flags.
  reduce_state.
  repeat match goal with
    | |- context [negb ?b] => is_var b; destruct b; reduce_state
    end;
    repeat split.
Qed.

(** ** Keyboard dispatch, continued *)

(** X18. [eventFilter] consumes an event exactly when it is a key press
    and either the window is locked or the key is one of the eight
    combinations it tests for; an event it does not consume leaves the state
    untouched.  So a locked window swallows every key press that reaches the
    filter, typing included, and an unlocked one lets all other keys
    through. *)
Theorem eventFilter_consumes_exactly (dialog : QColorDialog) (event : QEvent)
    (s : State) :
  snd (eventFilter dialog event s) =
    (ev_type event =? Qt.KeyPress) && (locked s || handled_key event)
  /\ (if snd (eventFilter dialog event s)
      then True else fst (eventFilter dialog event s) = s).
Proof.
  unfold eventFilter, handled_key.
  destruct (ev_type event =? Qt.KeyPress); cbn [andb]; [ | split; reflexivity ].
  destruct (key_is Qt.Key_L Qt.ControlModifier event);
    [ rewrite orb_true_r; split; [ reflexivity | exact I ] | ].
  destruct (key_is Qt.Key_S Qt.ControlModifier event);
    [ rewrite orb_true_r; split; [ reflexivity | exact I ] | ].
  destruct (locked s); cbn [orb]; [ split; [ reflexivity | exact I ] | ].
  repeat match goal with
    | |- context [if key_is ?k ?m event then _ else _] =>
        destruct (key_is k m event); cbn [orb snd fst]
    end;
    split; try reflexivity; exact I.
Qed.

(** X19. In an unlocked window the two dispatch paths agree: for each of
    the eight registered combinations, the key press handed to [eventFilter]
    leaves the same state as the [activated] signal of the shortcut object
    registered for it. *)
Theorem filter_agrees_with_shortcuts (dialog : QColorDialog) (s : State) :
  locked s = false ->
  fst (eventFilter dialog (key_press Qt.Key_L Qt.ControlModifier) s)
    = shortcut_activated "Ctrl+L" dialog s
  /\ fst (eventFilter dialog (key_press Qt.Key_S Qt.ControlModifier) s)
    = shortcut_activated "Ctrl+S" dialog s
  /\ fst (eventFilter dialog (key_press Qt.Key_C Qt.ControlModifier) s)
    = shortcut_activated "Ctrl+C" dialog s
  /\ fst (eventFilter dialog (key_press Qt.Key_Up Qt.ControlModifier) s)
    = shortcut_activated "Ctrl+Up" dialog s
  /\ fst (eventFilter dialog (key_press Qt.Key_Down Qt.ControlModifier) s)
    = shortcut_activated "Ctrl+Down" dialog s
  /\ fst (eventFilter dialog (key_press Qt.Key_Up Qt.ShiftModifier) s)
    = shortcut_activated "Shift+Up" dialog s
  /\ fst (eventFilter dialog (key_press Qt.Key_Down Qt.ShiftModifier) s)
    = shortcut_activated "Shift+Down" dialog s
  /\ fst (eventFilter dialog (key_press Qt.Key_H Qt.ControlModifier) s)
    = shortcut_activated "Ctrl+H" dialog s.
Proof.
  intros Hl. unfold eventFilter. cbn. rewrite Hl. repeat split.
Qed.

Lemma filter_agrees_with_shortcuts_witness :
  locked init = false
  /\ fst (eventFilter dialog_cancelled (key_press Qt.Key_Up Qt.ControlModifier) init)
     = shortcut_activated "Ctrl+Up" dialog_cancelled init.
Proof.
  split; [ reflexivity | ].
  apply (filter_agrees_with_shortcuts dialog_cancelled init eq_refl).
Defined.

Lemma locked_toggle_lock s : locked (toggle_lock s) = negb (locked s).
Proof.
  unfold toggle_lock. reduce_state. destruct (locked s); reflexivity.
Qed.

Lemma locked_toggle_scrolling s : locked (toggle_scrolling s) = locked s.
Proof.
  unfold toggle_scrolling. reduce_state. destruct (scrolling s); reflexivity.
Qed.

Lemma locked_scroll_slider_setValue v s :
  locked (scroll_slider_setValue v s) = locked s.
Proof.
  unfold scroll_slider_setValue, slider_setValue.
  destruct (_ =? _); reflexivity.
Qed.

Lemma locked_change_font_color dialog s :
  locked (change_font_color dialog s) = locked s.
Proof.
  unfold change_font_color.
  destruct (exec_ dialog); [ destruct (isValid _) | ]; reflexivity.
Qed.

(** X20. Through [eventFilter] only [Ctrl+L] changes the lock flag: the
    flag after the filter is the flag before, negated exactly when the event
    is a key press of L with the control modifier alone. *)
Theorem filter_changes_lock_on_ctrl_l_only (dialog : QColorDialog)
    (event : QEvent) (s : State) :
  locked (fst (eventFilter dialog event s)) =
  xorb (locked s)
       ((ev_type event =? Qt.KeyPress) && key_is Qt.Key_L Qt.ControlModifier event).
Proof.
  unfold eventFilter.
  destruct (ev_type event =? Qt.KeyPress); cbn [andb fst];
    [ | rewrite xorb_false_r; reflexivity ].
  destruct (key_is Qt.Key_L Qt.ControlModifier event); cbn [fst].
  { rewrite locked_toggle_lock. destruct (locked s); reflexivity. }
  rewrite xorb_false_r.
  destruct (key_is Qt.Key_S Qt.ControlModifier event); cbn [fst];
    [ apply locked_toggle_scrolling | ].
  destruct (locked s) eqn:Hl; cbn [fst]; [ exact Hl | ].
  repeat match goal with
    | |- context [if key_is ?k ?m event then _ else _] =>
        destruct (key_is k m event); cbn [fst]
    end;
    try exact Hl.
  - rewrite locked_change_font_color. exact Hl.
  - unfold increase_scroll_speed. rewrite locked_scroll_slider_setValue. exact Hl.
  - unfold decrease_scroll_speed. rewrite locked_scroll_slider_setValue. exact Hl.
Qed.

(** X21. In a reachable locked window the five style controls are inert: a
    font choice, a move of the size, transparency or speed slider and a click
    on the colour swatch all leave the state exactly as it was. *)
Theorem locked_controls_inert (s : State) (fam : string) (v : Z)
    (dialog : QColorDialog) :
  reachable s ->
  locked s = true ->
  handle (FontComboChanged fam) s = Some s
  /\ handle (SizeSliderMoved v) s = Some s
  /\ handle (TransSliderMoved v) s = Some s
  /\ handle (ScrollSliderMoved v) s = Some s
  /\ handle (ColorButtonClicked dialog) s = Some s.
Proof.
  intros Hs Hl. pose proof (reachable_Inv s Hs) as H. cbn [handle].
  rewrite (inv_font_combo s H), (inv_size_slider s H), (inv_trans_slider s H),
    (inv_color_button s H), (inv_scroll_slider s H), Hl.
  repeat split.
Qed.

Lemma locked_controls_inert_witness :
  reachable locked_window
  /\ locked locked_window = true
  /\ handle (SizeSliderMoved 40) locked_window = Some locked_window.
Proof.
  split; [ exact reachable_locked_window | ].
  split; [ reflexivity | ].
  apply (locked_controls_inert locked_window "Courier" 40 dialog_cancelled
           reachable_locked_window eq_refl).
Defined.

(** X22. The emergency unlock is idempotent and touches nothing but the
    lock: it leaves the scroll flag, the timer, the scroll offset, the speed
    and the window geometry as they were. *)
Theorem emergency_unlock_only_unlocks (s : State) :
  emergency_unlock (emergency_unlock s) = emergency_unlock s
  /\ scroll_mode (emergency_unlock s) = scroll_mode s
  /\ scroll_offset (emergency_unlock s) = scroll_offset s
  /\ scroll_speed (emergency_unlock s) = scroll_speed s
  /\ win_pos (emergency_unlock s) = win_pos s
  /\ win_size (emergency_unlock s) = win_size s.
Proof.
  unfold emergency_unlock at 1.
  assert (Hoff : locked (emergency_unlock s) = false).
  { unfold emergency_unlock. destruct (locked s) eqn:E; [ | exact E ].
    rewrite locked_toggle_lock, E. reflexivity. }
  rewrite Hoff. split; [ reflexivity | ].
  unfold emergency_unlock. destruct (locked s); [ | repeat split ].
  destruct (toggle_lock_frame s) as (Fp & _ & _ & Fm & Fo).
  split; [ exact Fm | ]. split; [ exact Fo | ].
  unfold toggle_lock. reduce_state. destruct (locked s); repeat split.
Qed.

(** X23. No sequence of events raises: from any reachable state every list
    of events runs to the end, and ends in a reachable state.  In particular
    [mouseMoveEvent] never reads the resize start or the drag offset before a
    press has stored it. *)
Theorem event_loop_never_raises (evs : list Event) (s : State) :
  reachable s ->
  exists s', run evs s = Some s' /\ reachable s'.
Proof.
  revert s. induction evs as [ | ev rest IH ]; intros s Hs.
  - exists s. split; [ reflexivity | exact Hs ].
  - destruct (handle_total ev s Hs) as (s1 & E).
    destruct (IH s1 (reachable_step s ev s1 Hs E)) as (s' & Hrun & Hs').
    exists s'. split; [ cbn [run]; rewrite E; exact Hrun | exact Hs' ].
Qed.

Lemma event_loop_never_raises_witness :
  reachable init
  /\ exists s',
       run [MouseMove move_left_held; MousePress corner_press;
            MouseMove move_to_origin; MouseRelease left_release] init = Some s'
       /\ reachable s'.
Proof.
  split; [ exact reachable_init | ].
  exact (event_loop_never_raises
           [MouseMove move_left_held; MousePress corner_press;
            MouseMove move_to_origin; MouseRelease left_release]
           init reachable_init).
Defined.

(** ** The font list, continued *)

Lemma fold_addItem_nonempty (families : list string) : forall c,
  ci_items c <> [] ->
  fold_left (fun c fam => addItem fam c) families c =
  mkItems (ci_items c ++ families) (ci_currentIndex c).
Proof.
  induction families as [ | fam rest IH ]; intros c Hne; cbn [fold_left].
  - rewrite app_nil_r. destruct c; reflexivity.
  - rewrite IH.
    + unfold addItem. destruct (ci_items c) eqn:E; [ congruence | ].
      cbn [ci_items ci_currentIndex]. rewrite <- app_assoc. reflexivity.
    + unfold addItem. destruct (ci_items c); [ congruence | ].
      cbn [ci_items]. destruct l; discriminate.
Qed.

Lemma fold_addItem_no_items (families : list string) :
  fold_left (fun c fam => addItem fam c) families no_items =
  mkItems families (match families with [] => -1 | _ => 0 end).
Proof.
  destruct families as [ | fam rest ]; [ reflexivity | ].
  cbn [fold_left]. rewrite fold_addItem_nonempty by discriminate.
  reflexivity.
Qed.

Lemma find_from_spec (text : string) (entries : list string) : forall k,
  0 <= k ->
  (find_from k text entries = -1
   /\ existsb (fun entry => String.eqb entry text) entries = false)
  \/ (k <= find_from k text entries < k + Z.of_nat (length entries)
      /\ nth (Z.to_nat (find_from k text entries - k)) entries "" = text
      /\ existsb (fun entry => String.eqb entry text) entries = true).
Proof.
  induction entries as [ | entry rest IH ]; intros k Hk; cbn [find_from existsb].
  - left. split; reflexivity.
  - destruct (String.eqb_spec entry text) as [-> | Hne]; cbn [orb].
    + right. rewrite Z.sub_diag. cbn [length Z.to_nat nth].
      repeat split; lia.
    + destruct (IH (k + 1)) as [[Hnone Hex] | (Hrange & Hnth & Hex)]; [ lia | | ].
      * left. split; assumption.
      * right. cbn [length]. split; [ lia | ]. split; [ | exact Hex ].
        replace (Z.to_nat (find_from (k + 1) text rest - k))
          with (S (Z.to_nat (find_from (k + 1) text rest - (k + 1)))) by lia.
        exact Hnth.
Qed.

(** X24. [load_fonts] on an empty combo box fills it with the families in
    the order the font database lists them and leaves the current index
    within the list (or -1 for an empty list).  The box then shows the default
    family if the database has it; if not, it shows the first family listed,
    so the box and the font family attribute disagree until the user picks a
    font. *)
Theorem load_fonts_selects_default (families : list string) (fam : string) :
  ci_items (load_fonts families fam no_items) = families
  /\ -1 <= ci_currentIndex (load_fonts families fam no_items)
        < Z.of_nat (length families)
  /\ currentText (load_fonts families fam no_items) =
     (if existsb (fun entry => String.eqb entry fam) families
      then fam else hd "" families).
Proof.
  unfold load_fonts, findText. rewrite fold_addItem_no_items.
  cbn [ci_items].
  destruct (find_from_spec fam families 0) as [[Hnone Hex] | (Hrange & Hnth & Hex)];
    [ lia | | ].
  - rewrite Hnone, Hex. cbn [Z.geb Z.compare].
    unfold currentText. destruct families as [ | first rest ]; cbn.
    + repeat split; lia.
    + repeat split; lia.
  - rewrite Hex.
    destruct (Z.geb_spec (find_from 0 fam families) 0) as [_ | ]; [ | lia ].
    unfold currentText, setCurrentIndex. cbn [ci_items ci_currentIndex].
    destruct (Z.ltb_spec (find_from 0 fam families) 0); [ lia | ].
    rewrite Z.sub_0_r in Hnth.
    repeat split; try lia. exact Hnth.
Qed.

(** ** Repeated speed changes *)

Lemma Inv_iter_increase (n : nat) s :
  Inv s -> Inv (Nat.iter n increase_scroll_speed s).
Proof.
  intros H. induction n as [ | n IH ]; cbn [Nat.iter];
    [ exact H | apply Inv_increase_scroll_speed, IH ].
Qed.

Lemma Inv_iter_decrease (n : nat) s :
  Inv s -> Inv (Nat.iter n decrease_scroll_speed s).
Proof.
  intros H. induction n as [ | n IH ]; cbn [Nat.iter];
    [ exact H | apply Inv_decrease_scroll_speed, IH ].
Qed.

(** X25. In every reachable state [n] speed-ups in a row leave the speed at
    [speed + n] or at 10, whichever is smaller, and [n] slow-downs leave it
    at [speed - n] or at 1, whichever is larger: nine steps from anywhere
    reach the end of the range, and further steps stay there. *)
Theorem repeated_speed_changes_saturate (s : State) (n : nat) :
  reachable s ->
  scroll_speed (Nat.iter n increase_scroll_speed s) =
    Z.min 10 (scroll_speed s + Z.of_nat n)
  /\ scroll_speed (Nat.iter n decrease_scroll_speed s) =
    Z.max 1 (scroll_speed s - Z.of_nat n)
  /\ scroll_speed (Nat.iter (9 + n) increase_scroll_speed s) = 10
  /\ scroll_speed (Nat.iter (9 + n) decrease_scroll_speed s) = 1.
Proof.
  intros Hs. pose proof (reachable_Inv s Hs) as H.
  pose proof (inv_scroll_speed s H) as Hsp.
  assert (Hup : forall k, scroll_speed (Nat.iter k increase_scroll_speed s) =
                          Z.min 10 (scroll_speed s + Z.of_nat k)).
  { induction k as [ | k IH ]; cbn [Nat.iter nat_rect]; [ lia | ].
    change (nat_rect (fun _ => State) s (fun _ => increase_scroll_speed) k)
      with (Nat.iter k increase_scroll_speed s).
    rewrite (increase_scroll_speed_value _ (Inv_iter_increase k s H)), IH. lia. }
  assert (Hdown : forall k, scroll_speed (Nat.iter k decrease_scroll_speed s) =
                            Z.max 1 (scroll_speed s - Z.of_nat k)).
  { induction k as [ | k IH ]; cbn [Nat.iter nat_rect]; [ lia | ].
    change (nat_rect (fun _ => State) s (fun _ => decrease_scroll_speed) k)
      with (Nat.iter k decrease_scroll_speed s).
    rewrite (decrease_scroll_speed_value _ (Inv_iter_decrease k s H)), IH. lia. }
  split; [ apply Hup | ]. split; [ apply Hdown | ].
  rewrite Hup, Hdown. split; lia.
Qed.

Lemma repeated_speed_changes_saturate_witness :
  reachable init
  /\ scroll_speed (Nat.iter 12 increase_scroll_speed init) =
     Z.min 10 (scroll_speed init + Z.of_nat 12).
Proof.
  split; [ exact reachable_init | ].
  apply (repeated_speed_changes_saturate init 12 reachable_init).
Defined.

(** ** What the lock leaves alone *)

(** X26. The lock toggle freezes the controls without altering what they
    set: font family, size and colour, the font and colour of the text
    surface, transparency and window opacity, scroll speed, strip visibility,
    window origin and size, and the gesture flags are the same before and
    after, in any state. *)
Theorem lock_preserves_presentation (s : State) :
  font_family (toggle_lock s) = font_family s
  /\ font_size (toggle_lock s) = font_size s
  /\ font_color (toggle_lock s) = font_color s
  /\ te_font (text_edit (toggle_lock s)) = te_font (text_edit s)
  /\ te_color (text_edit (toggle_lock s)) = te_color (text_edit s)
  /\ transparency (toggle_lock s) = transparency s
  /\ windowOpacity (toggle_lock s) = windowOpacity s
  /\ scroll_speed (toggle_lock s) = scroll_speed s
  /\ sl_value (scroll_slider (toggle_lock s)) = sl_value (scroll_slider s)
  /\ control_panel_visible (toggle_lock s) = control_panel_visible s
  /\ win_pos (toggle_lock s) = win_pos s
  /\ win_size (toggle_lock s) = win_size s
  /\ dragging (toggle_lock s) = dragging s
  /\ resizing (toggle_lock s) = resizing s.
Proof.
  open_state s. unfold toggle_lock. reduce_state.
  match goal with |- context [negb ?b] => is_var b; destruct b end;
    repeat split.
Qed.

(** ** Font family *)

Lemma currentText_found (fam : string) (entries : ComboItems) :
  0 <= findText fam entries ->
  currentText (setCurrentIndex (findText fam entries) entries) = fam.
Proof.
  intros Hfound. unfold findText in *.
  destruct (find_from_spec fam (ci_items entries) 0) as [[Hnone _] | (Hrange & Hnth & _)];
    [ lia | lia | ].
  unfold currentText, setCurrentIndex. cbn [ci_items ci_currentIndex].
  destruct (Z.ltb_spec (find_from 0 fam (ci_items entries)) 0); [ lia | ].
  rewrite Z.sub_0_r in Hnth. exact Hnth.
Qed.

(** X3. In every reachable state the text surface's font family is the
    font family attribute.  Picking an entry of the font combo box does
    nothing while the window is locked; in an unlocked window, picking a
    listed entry other than the one shown makes it the family of attribute
    and font and the text the box shows, and keeps the point size, while
    picking the entry already shown, or a text that is not listed, changes
    nothing. *)
Theorem font_family_applied (s : State) (fam : string) :
  reachable s ->
  family (te_font (text_edit s)) = font_family s
  /\ (if locked s
      then handle (FontComboChanged fam) s = Some s
      else exists s',
          handle (FontComboChanged fam) s = Some s'
          /\ pointSize (te_font (text_edit s')) = pointSize (te_font (text_edit s))
          /\ (if (0 <=? findText fam (co_list (font_combo s)))
                 && negb (String.eqb (currentText (co_list (font_combo s))) fam)
              then font_family s' = fam
                   /\ family (te_font (text_edit s')) = fam
                   /\ currentText (co_list (font_combo s')) = fam
              else s' = s)).
Proof.
  intros Hs. pose proof (reachable_StyleInv s Hs) as H.
  pose proof (reachable_Inv s Hs) as Hi.
  split; [ exact (sty_family s H) | ].
  cbn [handle]. rewrite (inv_font_combo s Hi).
  destruct (locked s); cbn [negb]; [ reflexivity | ].
  eexists. split; [ reflexivity | ].
  unfold font_combo_activated.
  destruct (Z.leb_spec 0 (findText fam (co_list (font_combo s)))) as [Hfound | ];
    cbn [andb]; [ | split; reflexivity ].
  destruct (String.eqb (currentText (co_list (font_combo s))) fam);
    cbn [negb]; [ split; reflexivity | ].
  split; [ reflexivity | ]. split; [ reflexivity | ].
  split; [ reflexivity | ].
  cbn. apply currentText_found. exact Hfound.
Qed.

Lemma font_family_applied_witness :
  reachable init
  /\ family (te_font (text_edit init)) = font_family init
  /\ (if locked init
      then handle (FontComboChanged "Courier New") init = Some init
      else exists s',
          handle (FontComboChanged "Courier New") init = Some s'
          /\ pointSize (te_font (text_edit s')) = pointSize (te_font (text_edit init))
          /\ (if (0 <=? findText "Courier New" (co_list (font_combo init)))
                 && negb (String.eqb (currentText (co_list (font_combo init)))
                                     "Courier New")
              then font_family s' = "Courier New"
                   /\ family (te_font (text_edit s')) = "Courier New"
                   /\ currentText (co_list (font_combo s')) = "Courier New"
              else s' = init)).
Proof.
  split; [ exact reachable_init | ].
  exact (font_family_applied init "Courier New" reachable_init).
Defined.
